(** * transcription.py: the TranscriptionService, embedded and verified

    The service of [src/transcription.py] downloads the audio track of a
    video with an external extractor (yt-dlp), transcribes it with an
    external model (Whisper) and removes the temporary file it used.

    The Python code is effectful: it raises and catches exceptions, it
    reads and deletes files, it mutates the fields of [self] and it calls
    two black boxes.  The embedding keeps all of that explicit:

    - exceptions are values of type [exc]; a computation ends in
      [Ret a] or in [Raise e], and the state reached so far is kept
      in both cases, as in Python;
    - the disk is a finite map from paths to files;
    - the fields of [self] are fields of the record [state];
    - the black boxes are the operations of the class [Externals];
    - every call that leaves the service (extractor, model, loader,
      [os.remove], [gc.collect], [print], ...) is also appended to a
      [trace], so that statements such as "the model is never invoked"
      can be written down. *)

From stdpp Require Import gmap strings list pretty.

Open Scope string_scope.
Open Scope list_scope.
Open Scope Z_scope.

(** ** Exceptions and outcomes *)

(** The classes of the exceptions that occur.  All of them derive from
    Python's [Exception], which is what every handler of the source
    catches. *)
Inductive exc_class :=
  | ValueError
  | FileNotFoundError
  | PermissionError
  | AttributeError
  | DownloadError
  | RuntimeError.

(** An exception object; [exc_msg e] is what [str(e)] returns. *)
Record exc := Exc { exc_cls : exc_class; exc_msg : string }.

Inductive outcome (A : Type) :=
  | Ret (a : A)
  | Raise (e : exc).
Arguments Ret {A} a.
Arguments Raise {A} e.

(** ** Files, options and events *)

(** A file on disk.  [removable = false] stands for every reason why
    [os.remove] raises on an existing path (a file owned by somebody else
    in a sticky temp directory, a file still held open, a directory). *)
Record file := File { st_size : Z; removable : bool }.

Inductive device := Cuda | Cpu.

Definition device_name (d : device) : string :=
  match d with Cuda => "cuda" | Cpu => "cpu" end.

(** Identity of a loaded model object. *)
Definition handle := positive.

Record postprocessor := Postprocessor {
  key : string;
  preferredcodec : string;
  preferredquality : string
}.

(** The dictionary built by [_get_ydl_opts]. *)
Record ydl_opts := YdlOpts {
  format : string;
  postprocessors : list postprocessor;
  outtmpl : string;
  quiet : bool;
  no_warnings : bool;
  nocheckcertificate : bool;
  ignoreerrors : bool;
  logtostderr : bool;
  extractor_retries : Z;
  retries : Z;
  fragment_retries : Z;
  skip_unavailable_fragments : bool;
  http_headers : list (string * string)
}.

(** The keyword arguments of [model.transcribe]. *)
Record transcribe_args := TranscribeArgs {
  fp16 : bool;
  language : string;
  task : string
}.

(** What [model.transcribe] returns, as far as the service reads it. *)
Record transcription := Transcription { text : string }.

(** The calls that leave the service, in the order they are made.  The
    boolean of an event tells whether the call returned ([true]) or
    raised ([false]). *)
Inductive event :=
  | EvCudaEmptyCache
  | EvGcCollect
  | EvLoadModel (model_size : string) (dev : device) (ok : bool)
  | EvYdlDownload (url : string) (opts : ydl_opts) (ok : bool)
  | EvTranscribe (h : handle) (path : string) (ok : bool)
  | EvRemove (path : string) (ok : bool)
  | EvPrint (line : string).

(** ** Strings: the three operations the source uses *)

(** [s[:-4]]: everything but the last four characters (the empty string
    when [s] has fewer than four). *)
Definition drop_last4 (s : string) : string :=
  String.substring 0 (String.length s - 4) s.

Definition startswith (s pre : string) : bool := String.prefix pre s.

Definition endswith (s suf : string) : bool :=
  String.eqb
    (String.substring (String.length s - String.length suf)
                      (String.length suf) s)
    suf
  && (String.length suf <=? String.length s)%nat.

(** Truth value of a string: [if s:] holds for the non-empty ones. *)
Definition truthy (s : string) : bool :=
  match s with EmptyString => false | String _ _ => true end.

(** [os.path.join(a, b)] (posixpath, two arguments). *)
Definition os_path_join (a b : string) : string :=
  if startswith b "/" then b
  else if negb (truthy a) || endswith a "/" then a +:+ b
  else a +:+ "/" +:+ b.

(** ** The interface of the outside world

    [World] is whatever the black boxes depend on besides the disk (the
    network, the clock, the accelerator).  The extractor may change the
    disk; the model only reads it. *)
Class Externals (World : Type) := {
  cuda_is_available : World → bool;
  gettempdir : World → outcome string;
  (** [int(time.time())]. *)
  time_now : World → Z;
  (** [with yt_dlp.YoutubeDL(opts) as ydl: ydl.download(urls)]. *)
  ydl_download :
    list string → ydl_opts → World → gmap string file →
    outcome unit * World * gmap string file;
  whisper_load_model : string → device → World → outcome handle * World;
  model_transcribe :
    handle → string → transcribe_args → World → gmap string file →
    outcome transcription * World
}.

(** ** The state and the monad of the service *)

Section Service.

Context {World : Type} {ext : Externals World}.

(** The fields of a [TranscriptionService] object, the disk, the outside
    world and the trace of the calls made so far (oldest first). *)
Record state := State {
  model : option handle;
  model_size : string;
  dev : device;
  _model_loaded : bool;
  fs : gmap string file;
  world : World;
  trace : list event
}.

(** A method body: it runs from a state and ends in a value or in an
    exception, together with the state it reached. *)
Definition M (A : Type) : Type := state → outcome A * state.

Definition ret {A} (a : A) : M A := λ s, (Ret a, s).

Definition raise {A} (e : exc) : M A := λ s, (Raise e, s).

Definition bind {A B} (m : M A) (k : A → M B) : M B :=
  λ s, match m s with
       | (Ret a, s') => k a s'
       | (Raise e, s') => (Raise e, s')
       end.

(** [try: m except Exception as e: h e]. *)
Definition try_except {A} (m : M A) (h : exc → M A) : M A :=
  λ s, match m s with
       | (Ret a, s') => (Ret a, s')
       | (Raise e, s') => h e s'
       end.

(** A [try] block that assigns a local variable on its way, which the
    [except] block reads:
    [v = None; try: v = m1; m2 v  except Exception as e: h v e].
    The handler gets [None] when the exception comes from [m1], before
    the assignment, and [Some v] afterwards. *)
Definition try_assign_except {L A} (m1 : M L) (m2 : L → M A)
    (h : option L → exc → M A) : M A :=
  λ s, match m1 s with
       | (Ret v, s') => try_except (m2 v) (h (Some v)) s'
       | (Raise e, s') => h None e s'
       end.

(** [try: m except Exception: pass]. *)
Definition try_pass (m : M unit) : M unit := try_except m (λ _, ret tt).

(** [x ← m; k] and [m;; k] are stdpp's notations for [bind]. *)
#[global] Instance M_ret : MRet M := @ret.
#[global] Instance M_bind : MBind M := λ A B k m, bind m k.

Definition log (e : event) : M unit :=
  λ s, (Ret tt,
        {| model := model s; model_size := model_size s; dev := dev s;
           _model_loaded := _model_loaded s; fs := fs s; world := world s;
           trace := trace s ++ [e] |}).

Definition set_fs (d : gmap string file) (s : state) : state :=
  {| model := model s; model_size := model_size s; dev := dev s;
     _model_loaded := _model_loaded s; fs := d; world := world s;
     trace := trace s |}.

Definition set_world (w : World) (s : state) : state :=
  {| model := model s; model_size := model_size s; dev := dev s;
     _model_loaded := _model_loaded s; fs := fs s; world := w;
     trace := trace s |}.

Definition set_model (h : handle) (s : state) : state :=
  {| model := Some h; model_size := model_size s; dev := dev s;
     _model_loaded := _model_loaded s; fs := fs s; world := world s;
     trace := trace s |}.

Definition set_model_loaded (b : bool) (s : state) : state :=
  {| model := model s; model_size := model_size s; dev := dev s;
     _model_loaded := b; fs := fs s; world := world s;
     trace := trace s |}.

Definition get {A} (f : state → A) : M A := λ s, (Ret (f s), s).

Definition modify (f : state → state) : M unit := λ s, (Ret tt, f s).

(** ** The library calls of the source *)

Definition os_path_exists (p : string) : M bool :=
  get (λ s, bool_decide (is_Some (fs s !! p))).

(** [os.path.getsize(p)]. *)
Definition os_path_getsize (p : string) : M Z :=
  λ s, match fs s !! p with
       | Some f => (Ret (st_size f), s)
       | None =>
           (Raise (Exc FileNotFoundError
                     ("[Errno 2] No such file or directory: '" +:+ p +:+ "'")),
            s)
       end.

(** [os.remove(p)]: deletes the file, or raises and leaves the disk as
    it was. *)
Definition os_remove (p : string) : M unit :=
  λ s, match fs s !! p with
       | None =>
           (log (EvRemove p false);;
            raise (Exc FileNotFoundError
                     ("[Errno 2] No such file or directory: '" +:+ p +:+ "'")))
             s
       | Some f =>
           if removable f then
             (modify (set_fs (delete p (fs s)));; log (EvRemove p true)) s
           else
             (log (EvRemove p false);;
              raise (Exc PermissionError
                       ("[Errno 13] Permission denied: '" +:+ p +:+ "'")))
               s
       end.

Definition gc_collect : M unit := log EvGcCollect.

Definition torch_cuda_empty_cache : M unit := log EvCudaEmptyCache.

Definition print (line : string) : M unit := log (EvPrint line).

Definition tempfile_gettempdir : M string :=
  λ s, (gettempdir (world s), s).

Definition time_time : M Z := get (λ s, time_now (world s)).

(** The extractor runs on the world and the disk and leaves both as it
    pleases; the call is recorded with its outcome. *)
Definition YoutubeDL_download (opts : ydl_opts) (urls : list string) : M unit :=
  λ s, let '(r, w, d) := ydl_download urls opts (world s) (fs s) in
       let s' := set_fs d (set_world w s) in
       match r with
       | Ret _ => (log (EvYdlDownload (default "" (head urls)) opts true);; ret tt) s'
       | Raise e =>
           (log (EvYdlDownload (default "" (head urls)) opts false);; raise e) s'
       end.

Definition whisper_load (name : string) (d : device) : M handle :=
  λ s, let '(r, w) := whisper_load_model name d (world s) in
       let s' := set_world w s in
       match r with
       | Ret h => (log (EvLoadModel name d true);; ret h) s'
       | Raise e => (log (EvLoadModel name d false);; raise e) s'
       end.

Definition transcribe (h : handle) (path : string) (args : transcribe_args)
  : M transcription :=
  λ s, let '(r, w) := model_transcribe h path args (world s) (fs s) in
       let s' := set_world w s in
       match r with
       | Ret t => (log (EvTranscribe h path true);; ret t) s'
       | Raise e => (log (EvTranscribe h path false);; raise e) s'
       end.

(** [model.transcribe(...)] on what [load_model] returned: a method call
    on [None] raises. *)
Definition model_transcribe_call (m : option handle) (path : string)
    (args : transcribe_args) : M transcription :=
  match m with
  | Some h => transcribe h path args
  | None =>
      raise (Exc AttributeError
               "'NoneType' object has no attribute 'transcribe'")
  end.

(** ** TranscriptionService *)

(** [__init__], on a given disk and world, with an empty trace. *)
Definition __init__ (d : gmap string file) (w : World) : state :=
  {| model := None;
     model_size := "tiny";
     dev := if cuda_is_available w then Cuda else Cpu;
     _model_loaded := false;
     fs := d;
     world := w;
     trace := [] |}.

Definition load_model : M (option handle) :=
  loaded ← get _model_loaded;
  (if negb loaded then
     d ← get dev;
     match d with Cuda => torch_cuda_empty_cache | Cpu => ret tt end;;
     gc_collect;;
     name ← get model_size;
     h ← whisper_load name d;
     modify (set_model h);;
     modify (set_model_loaded true);;
     gc_collect
   else ret tt);;
  get model.

Definition _get_ydl_opts (temp_file format_option : string) : ydl_opts :=
  {| format := format_option;
     postprocessors :=
       [ {| key := "FFmpegExtractAudio";
            preferredcodec := "mp3";
            preferredquality := "128" |} ];
     outtmpl := drop_last4 temp_file;
     quiet := true;
     no_warnings := true;
     nocheckcertificate := true;
     ignoreerrors := false;
     logtostderr := false;
     extractor_retries := 3;
     retries := 3;
     fragment_retries := 3;
     skip_unavailable_fragments := false;
     http_headers :=
       [ ("User-Agent",
          "Mozilla/5.0 (Windows NT 10.0; Win64; x64) AppleWebKit/537.36 (KHTML, like Gecko) Chrome/120.0.0.0 Safari/537.36");
         ("Accept",
          "text/html,application/xhtml+xml,application/xml;q=0.9,image/webp,*/*;q=0.8");
         ("Accept-Language", "en-US,en;q=0.5");
         ("Accept-Encoding", "gzip, deflate, br");
         ("Connection", "keep-alive");
         ("Upgrade-Insecure-Requests", "1") ] |}.

Definition _try_download (url temp_file format_option : string) : M bool :=
  try_except
    (let ydl_opts := _get_ydl_opts temp_file format_option in
     YoutubeDL_download ydl_opts [url];;
     ret true)
    (λ e,
       print ("Download attempt failed with format " +:+ format_option
              +:+ ": " +:+ exc_msg e);;
       ret false).

Definition format_options : list string :=
  [ "bestaudio/best";
    "worstaudio/worst";
    "bestaudio[ext=m4a]";
    "bestaudio[ext=mp3]";
    "140" ].

(** The [for ... else] loop of [download_audio]: [true] when it was left
    by [break], [false] when the options ran out (the [else] clause). *)
Fixpoint try_formats (url temp_file : string) (options : list string)
  : M bool :=
  match options with
  | [] => ret false
  | format_option :: rest =>
      ok ← _try_download url temp_file format_option;
      if (ok : bool) then ret true else try_formats url temp_file rest
  end.

(** The [try] block of [download_audio] after [temp_file] is assigned. *)
Definition download_audio_attempts (url temp_file : string) : M string :=
  found ← try_formats url temp_file format_options;
  (if (found : bool) then ret tt
   else raise (Exc ValueError "All download attempts failed"));;
  present ← os_path_exists temp_file;
  (if negb present
   then raise (Exc FileNotFoundError "Downloaded audio file not found")
   else ret tt);;
  ret temp_file.

(** The [except] block of [download_audio]; [temp_file] is the value the
    local variable has when the exception arrives ([None] while it is
    unassigned). *)
Definition download_audio_except (temp_file : option string) (e : exc)
  : M string :=
  match temp_file with
  | Some temp_file =>
      if truthy temp_file then
        present ← os_path_exists temp_file;
        (if (present : bool) then os_remove temp_file else ret tt);;
        present' ← os_path_exists (drop_last4 temp_file);
        (if (present' : bool) then os_remove (drop_last4 temp_file) else ret tt)
      else ret tt
  | None => ret tt
  end;;
  raise (Exc ValueError ("Error downloading audio: " +:+ exc_msg e)).

(** The path [download_audio] builds from the temp directory and the
    clock. *)
Definition temp_file_path (temp_dir : string) (timestamp : Z) : string :=
  os_path_join temp_dir ("audio_" +:+ pretty timestamp +:+ ".mp3").

Definition download_audio (url : string) : M string :=
  try_assign_except
    (temp_dir ← tempfile_gettempdir;
     timestamp ← time_time;
     ret (temp_file_path temp_dir timestamp))
    (download_audio_attempts url)
    download_audio_except.

Definition transcribe_audio (audio_path : string) : M string :=
  try_except
    (present ← os_path_exists audio_path;
     (if negb present
      then raise (Exc FileNotFoundError
                    ("Audio file not found at " +:+ audio_path))
      else ret tt);;
     n ← os_path_getsize audio_path;
     (if bool_decide (n = 0)
      then raise (Exc ValueError "Audio file is empty")
      else ret tt);;
     m ← load_model;
     result ← model_transcribe_call m audio_path
                {| fp16 := false; language := "en"; task := "transcribe" |};
     try_pass (os_remove audio_path);;
     gc_collect;;
     d ← get dev;
     match d with Cuda => torch_cuda_empty_cache | Cpu => ret tt end;;
     ret (text result))
    (λ e,
       try_pass
         (present ← os_path_exists audio_path;
          if (present : bool) then os_remove audio_path else ret tt);;
       raise (Exc ValueError ("Error transcribing audio: " +:+ exc_msg e))).

(** The [except] block of [process_video]; [audio_path] is the value of
    the local variable when the exception arrives. *)
Definition process_video_except (audio_path : option string) (e : exc)
  : M string :=
  match audio_path with
  | Some audio_path =>
      if truthy audio_path then
        present ← os_path_exists audio_path;
        if (present : bool) then try_pass (os_remove audio_path) else ret tt
      else ret tt
  | None => ret tt
  end;;
  raise (Exc ValueError ("Error processing video: " +:+ exc_msg e)).

Definition process_video (url : string) : M string :=
  try_assign_except
    (download_audio url)
    (λ audio_path,
       (if negb (truthy audio_path)
        then raise (Exc ValueError "Failed to download audio")
        else ret tt);;
       transcript ← transcribe_audio audio_path;
       ret transcript)
    process_video_except.

End Service.

Arguments state World : clear implicits.
Arguments M World A : clear implicits.

(** ** Observations on traces *)

(** The download attempts of a trace: format and outcome of each call of
    the extractor, in order. *)
Definition attempt_of (e : event) : option (string * bool) :=
  match e with
  | EvYdlDownload _ opts ok => Some (format opts, ok)
  | _ => None
  end.

Definition attempts (t : list event) : list (string * bool) :=
  omap attempt_of t.

(** The calls of the model and of its loader. *)
Definition is_model_event (e : event) : bool :=
  match e with
  | EvLoadModel _ _ _ | EvTranscribe _ _ _ => true
  | _ => false
  end.

Definition model_events (t : list event) : list event :=
  List.filter is_model_event t.

Definition is_load_event (e : event) : bool :=
  match e with EvLoadModel _ _ _ => true | _ => false end.

(** How many times the loader was called. *)
Definition loader_calls (t : list event) : nat :=
  length (List.filter is_load_event t).

(** The paths [os.remove] was called on, with the outcome. *)
Definition removal_of (e : event) : option (string * bool) :=
  match e with EvRemove p ok => Some (p, ok) | _ => None end.

Definition removals (t : list event) : list (string * bool) :=
  omap removal_of t.

(** [sub in s] on strings. *)
Fixpoint contains (sub s : string) : bool :=
  String.prefix sub s
  || match s with
     | EmptyString => false
     | String _ s' => contains sub s'
     end.

(** [os.remove] would not raise on what is at [p], if anything is. *)
Definition deletable (p : string) (d : gmap string file) : bool :=
  match d !! p with
  | Some f => removable f
  | None => true
  end.

(** A failed download attempt with the given format. *)
Definition failed (format_option : string) : string * bool :=
  (format_option, false).

(** [n] calls of a method in a row: the outcomes and the last state. *)
Fixpoint call_times {World A} (m : M World A) (n : nat) (s : state World)
  : list (outcome A) * state World :=
  match n with
  | O => ([], s)
  | S n' => let '(r, s') := m s in
            let '(rs, s'') := call_times m n' s' in
            (r :: rs, s'')
  end.

(** ** Test doubles

    A scripted outside world, as a test of the service would stub it:
    the extractor succeeds on the listed formats and fails on the others,
    and on every call it leaves the given files on disk. *)
Record script := Script {
  sc_tempdir : outcome string;
  sc_clock : Z;
  sc_cuda : bool;
  sc_formats_ok : list string;
  sc_leaves : ydl_opts → list (string * file);
  sc_load : outcome handle;
  sc_transcribe : outcome transcription
}.

Definition scripted (c : script) : Externals unit := {|
  cuda_is_available _ := sc_cuda c;
  gettempdir _ := sc_tempdir c;
  time_now _ := sc_clock c;
  ydl_download _ opts w d :=
    (if bool_decide (format opts ∈ sc_formats_ok c)
     then Ret tt
     else Raise (Exc DownloadError "ERROR: Requested format is not available"),
     w,
     foldr (λ pf acc, <[pf.1 := pf.2]> acc) d (sc_leaves c opts));
  whisper_load_model _ _ w := (sc_load c, w);
  model_transcribe _ _ _ w _ := (sc_transcribe c, w)
|}.

(** No format works and nothing is left behind. *)
Definition sc_unavailable : script :=
  {| sc_tempdir := Ret "/tmp";
     sc_clock := 1700000000;
     sc_cuda := false;
     sc_formats_ok := [];
     sc_leaves := λ _, [];
     sc_load := Ret 1%positive;
     sc_transcribe := Ret {| text := "hello world" |} |}.

(** No format works; every attempt leaves a partial download at the
    output template, which can be removed or not, as [can_remove] says. *)
Definition sc_partial (can_remove : bool) : script :=
  {| sc_tempdir := Ret "/tmp";
     sc_clock := 1700000000;
     sc_cuda := false;
     sc_formats_ok := [];
     sc_leaves := λ opts, [(outtmpl opts, File 512 can_remove)];
     sc_load := Ret 1%positive;
     sc_transcribe := Ret {| text := "hello world" |} |}.

(** No format works; every attempt leaves an mp3 that cannot be removed
    and a raw download that can. *)
Definition sc_locked_mp3 : script :=
  {| sc_tempdir := Ret "/tmp";
     sc_clock := 1700000000;
     sc_cuda := false;
     sc_formats_ok := [];
     sc_leaves := λ opts, [(outtmpl opts +:+ ".mp3", File 512 false);
                           (outtmpl opts, File 2048 true)];
     sc_load := Ret 1%positive;
     sc_transcribe := Ret {| text := "hello world" |} |}.

(** The first format is reported as downloaded, but only the raw file is
    there, no mp3. *)
Definition sc_no_mp3 (can_remove : bool) : script :=
  {| sc_tempdir := Ret "/tmp";
     sc_clock := 1700000000;
     sc_cuda := false;
     sc_formats_ok := ["bestaudio/best"];
     sc_leaves := λ opts, [(outtmpl opts, File 2048 can_remove)];
     sc_load := Ret 1%positive;
     sc_transcribe := Ret {| text := "hello world" |} |}.

(** The third format works and the mp3 is written. *)
Definition sc_third_format : script :=
  {| sc_tempdir := Ret "/tmp";
     sc_clock := 1700000000;
     sc_cuda := false;
     sc_formats_ok := ["bestaudio[ext=m4a]"];
     sc_leaves := λ opts,
       if bool_decide (format opts = "bestaudio[ext=m4a]")
       then [(outtmpl opts +:+ ".mp3", File 4096 true)] else [];
     sc_load := Ret 1%positive;
     sc_transcribe := Ret {| text := "hello world" |} |}.

(** A disk with one audio file of the given size and permission. *)
Definition disk_with (p : string) (n : Z) (can_remove : bool)
  : gmap string file :=
  {[ p := File n can_remove ]}.

(** The inputs of the scripted runs: a URL, the path the service builds
    from ["/tmp"] and the scripted clock, and a fresh service object. *)
Definition video_url : string := "https://www.youtube.com/watch?v=jNQXAC9IVRw".

Definition audio_file : string := "/tmp/audio_1700000000.mp3".

Definition fresh (c : script) (d : gmap string file) : state unit :=
  __init__ (ext := scripted c) d tt.

Definition run_download (c : script) (d : gmap string file)
  : outcome string * state unit :=
  download_audio (ext := scripted c) video_url (fresh c d).

Definition run_transcribe (c : script) (d : gmap string file)
  : outcome string * state unit :=
  transcribe_audio (ext := scripted c) audio_file (fresh c d).

Definition run_process (c : script) (d : gmap string file)
  : outcome string * state unit :=
  process_video (ext := scripted c) video_url (fresh c d).

(** The message of the exception a run ended in, if it did. *)
Definition raised_msg {A} (r : outcome A) : option string :=
  match r with Ret _ => None | Raise e => Some (exc_msg e) end.

(** ** Further observations and scripts *)

(** The fields of [self]. *)
Definition self_fields {World} (s : state World)
  : option handle * string * device * bool :=
  (model s, model_size s, dev s, _model_loaded s).

(** The flag [_model_loaded] is only set when [model] holds a handle. *)
Definition model_ready {World} (s : state World) : bool :=
  negb (_model_loaded s) || bool_decide (is_Some (model s)).

(** The directory part of a joined path: [a], with a separator unless [a]
    is empty or ends in one. *)
Definition dir_prefix (a : string) : string :=
  if negb (truthy a) || endswith a "/" then a else a +:+ "/".

(** The keyword arguments [transcribe_audio] passes to the model. *)
Definition whisper_args : transcribe_args :=
  {| fp16 := false; language := "en"; task := "transcribe" |}.

(** The extractor works at once and writes the mp3; the loader raises. *)
Definition sc_load_fails : script :=
  {| sc_tempdir := Ret "/tmp";
     sc_clock := 1700000000;
     sc_cuda := true;
     sc_formats_ok := ["bestaudio/best"];
     sc_leaves := λ opts, [(outtmpl opts +:+ ".mp3", File 4096 true)];
     sc_load := Raise (Exc RuntimeError "CUDA out of memory");
     sc_transcribe := Ret {| text := "hello world" |} |}.

(** The extractor works at once and writes the mp3; the model raises. *)
Definition sc_model_fails : script :=
  {| sc_tempdir := Ret "/tmp";
     sc_clock := 1700000000;
     sc_cuda := false;
     sc_formats_ok := ["bestaudio/best"];
     sc_leaves := λ opts, [(outtmpl opts +:+ ".mp3", File 4096 true)];
     sc_load := Ret 1%positive;
     sc_transcribe := Raise (Exc RuntimeError "Failed to load audio") |}.

(** The extractor works at once and writes the mp3; the model answers. *)
Definition sc_first_format : script :=
  {| sc_tempdir := Ret "/tmp";
     sc_clock := 1700000000;
     sc_cuda := false;
     sc_formats_ok := ["bestaudio/best"];
     sc_leaves := λ opts, [(outtmpl opts +:+ ".mp3", File 4096 true)];
     sc_load := Ret 1%positive;
     sc_transcribe := Ret {| text := "hello world" |} |}.

(** What a state shows of the model: the fields of [self] and the calls
    of the loader and of the model made so far. *)
Definition model_view {World} (s : state World)
  : option handle * string * device * bool * list event :=
  (self_fields s, model_events (trace s)).

(** The [except] block of [transcribe_audio]. *)
Definition transcribe_audio_except {World} {ext : Externals World}
    (audio_path : string) (e : exc) : M World string :=
  try_pass
    (present ← os_path_exists audio_path;
     if (present : bool) then os_remove audio_path else ret tt);;
  raise (Exc ValueError ("Error transcribing audio: " +:+ exc_msg e)).

(** The end of the [try] block of [transcribe_audio], once the model has
    answered [result]. *)
Definition transcribe_audio_finish {World} {ext : Externals World}
    (audio_path : string) (result : transcription) : M World string :=
  try_pass (os_remove audio_path);;
  gc_collect;;
  d ← get dev;
  match d with Cuda => torch_cuda_empty_cache | Cpu => ret tt end;;
  ret (text result).

(** The calls of the extractor in a trace: URL and options of each. *)
Definition extractor_call_of (e : event) : option (string * ydl_opts) :=
  match e with
  | EvYdlDownload url opts _ => Some (url, opts)
  | _ => None
  end.

Definition extractor_calls (t : list event) : list (string * ydl_opts) :=
  omap extractor_call_of t.

(** The [try] block of [transcribe_audio]. *)
Definition transcribe_audio_try {World} {ext : Externals World}
    (audio_path : string) : M World string :=
  present ← os_path_exists audio_path;
  (if negb present
   then raise (Exc FileNotFoundError
                 ("Audio file not found at " +:+ audio_path))
   else ret tt);;
  n ← os_path_getsize audio_path;
  (if bool_decide (n = 0)
   then raise (Exc ValueError "Audio file is empty")
   else ret tt);;
  m ← load_model;
  result ← model_transcribe_call m audio_path
             {| fp16 := false; language := "en"; task := "transcribe" |};
  try_pass (os_remove audio_path);;
  gc_collect;;
  d ← get dev;
  match d with Cuda => torch_cuda_empty_cache | Cpu => ret tt end;;
  ret (text result).


(** * Properties of the service *)

#[local] Arguments _get_ydl_opts : simpl never.
#[local] Arguments temp_file_path : simpl never.
#[local] Arguments drop_last4 : simpl never.
#[local] Arguments String.append : simpl never.
#[local] Arguments download_audio_except : simpl never.
#[local] Arguments process_video_except : simpl never.
#[local] Arguments os_remove : simpl never.
#[local] Arguments loader_calls : simpl never.

(** Opens the monadic operations, so that a method body becomes a nest
    of [match]es on the outcomes of the calls it makes. *)
Ltac munfold :=
  unfold try_assign_except, try_pass, print, gc_collect,
    torch_cuda_empty_cache in *;
  unfold try_except, mbind, M_bind, bind, ret, raise, get, modify, log in *;
  cbn beta iota zeta delta [fst snd] in *.

Section Proofs.

Context {World : Type} {ext : Externals World}.
Implicit Types s : state World.

(** ** Traces *)

Lemma attempts_snoc t e :
  attempts (t ++ [e]) = attempts t ++ option_list (attempt_of e).
Proof. unfold attempts. rewrite omap_app. cbn. by destruct (attempt_of e). Qed.

Lemma loader_calls_snoc t e :
  loader_calls (t ++ [e])
  = (loader_calls t + if is_load_event e then 1 else 0)%nat.
Proof.
  unfold loader_calls. rewrite List.filter_app, length_app. cbn.
  by destruct (is_load_event e).
Qed.

(** ** [os.remove] and [os.path.join] *)

Lemma attempts_os_remove p s :
  attempts (trace (os_remove p s).2) = attempts (trace s).
Proof.
  unfold os_remove. destruct (fs s !! p) as [f|]; [destruct (removable f)|];
    munfold; cbn; rewrite attempts_snoc; cbn; by rewrite app_nil_r.
Qed.

Lemma os_remove_deletable p s :
  is_Some (fs s !! p) → deletable p (fs s) = true →
  ∃ s', os_remove p s = (Ret tt, s') ∧ fs s' = delete p (fs s).
Proof.
  intros [f Hf] Hd. unfold deletable in Hd. rewrite Hf in Hd.
  unfold os_remove. rewrite Hf, Hd. munfold.
  eexists. split; reflexivity.
Qed.

Lemma truthy_append a b : truthy (a +:+ b) = truthy a || truthy b.
Proof. by destruct a. Qed.

Lemma os_path_join_truthy a b :
  truthy b = true → truthy (os_path_join a b) = true.
Proof.
  intros Hb. unfold os_path_join.
  destruct (startswith b "/"); [done|].
  destruct (negb (truthy a) || endswith a "/");
    rewrite !truthy_append, ?Hb; by destruct (truthy a).
Qed.

Lemma temp_file_path_truthy temp_dir timestamp :
  truthy (temp_file_path temp_dir timestamp) = true.
Proof. apply os_path_join_truthy. reflexivity. Qed.

Lemma truthy_nonempty p : truthy p = true → p ≠ "".
Proof. by destruct p. Qed.

(** ** [load_model] *)



Lemma load_model_fs s : fs (load_model s).2 = fs s.
Proof.
  unfold load_model, whisper_load. munfold.
  destruct (_model_loaded s); cbn; [done|].
  destruct (dev s); cbn;
    by destruct (whisper_load_model _ _ _) as [[h|e] w].
Qed.


(** ** [_try_download] *)

(** C9: [_try_download] always returns, with [True] exactly when the
    extractor returned and [False] exactly when it raised. *)
Theorem try_download_total url temp_file format_option s :
  ∃ b s',
    _try_download url temp_file format_option s = (Ret b, s')
    ∧ (b = true ↔
       ∃ u, (ydl_download [url] (_get_ydl_opts temp_file format_option)
               (world s) (fs s)).1.1 = Ret u)
    ∧ (b = false ↔
       ∃ e, (ydl_download [url] (_get_ydl_opts temp_file format_option)
               (world s) (fs s)).1.1 = Raise e).
Proof.
  unfold _try_download, YoutubeDL_download. munfold.
  destruct (ydl_download _ _ _ _) as [[[u|e] w] d]; cbn.
  - eexists true, _. split; [reflexivity|].
    split; split; eauto; try discriminate.
    intros [? ?]; discriminate.
  - eexists false, _. split; [reflexivity|].
    split; split; eauto; try discriminate.
    intros [? ?]; discriminate.
Qed.

Lemma attempts_try_download url temp_file format_option s :
  ∃ b s',
    _try_download url temp_file format_option s = (Ret b, s')
    ∧ attempts (trace s') = attempts (trace s) ++ [(format_option, b)].
Proof.
  unfold _try_download, YoutubeDL_download. munfold.
  destruct (ydl_download _ _ _ _) as [[[u|e] w] d]; cbn.
  - eexists true, _. split; [reflexivity|]. cbn. by rewrite attempts_snoc.
  - eexists false, _. split; [reflexivity|]. cbn.
    rewrite !attempts_snoc. cbn. by rewrite app_nil_r.
Qed.

(** ** [download_audio] *)

(** The loop returns, and it has tried the options in order up to the
    first success, or all of them in vain. *)
Lemma attempts_try_formats url temp_file options s :
  ∃ b s',
    try_formats url temp_file options s = (Ret b, s')
    ∧ ∃ l, attempts (trace s') = attempts (trace s) ++ l
      ∧ if b then
          ∃ k f, options !! k = Some f
                 ∧ l = (failed <$> take k options) ++ [(f, true)]
        else l = failed <$> options.
Proof.
  revert s. induction options as [|f rest IH]; intros s; cbn.
  - exists false, s. split; [done|]. exists []. by rewrite app_nil_r.
  - destruct (attempts_try_download url temp_file f s) as (b & s1 & E1 & T1).
    munfold. rewrite E1. destruct b.
    + exists true, s1. split; [done|]. exists [(f, true)]. split; [done|].
      by exists 0%nat, f.
    + destruct (IH s1) as (b & s2 & E2 & l & T2 & Hl).
      exists b, s2. split; [done|]. exists ((f, false) :: l).
      split; [by rewrite T2, T1, <-app_assoc|].
      destruct b; [|by rewrite Hl].
      destruct Hl as (k & g & Hk & ->). by exists (S k), g.
Qed.

Lemma attempts_download_audio_except temp_file e s :
  attempts (trace (download_audio_except temp_file e s).2) = attempts (trace s).
Proof.
  unfold download_audio_except, os_path_exists. munfold.
  destruct temp_file as [tf|]; [|done].
  destruct (truthy tf); [|done].
  destruct (bool_decide (is_Some (fs s !! tf))).
  - pose proof (attempts_os_remove tf s) as R1.
    destruct (os_remove tf s) as [[[]|e1] s1]; cbn in *; [|done].
    destruct (bool_decide (is_Some (fs s1 !! drop_last4 tf))); [|done].
    pose proof (attempts_os_remove (drop_last4 tf) s1) as R2.
    destruct (os_remove (drop_last4 tf) s1) as [[[]|e2] s2]; cbn in *;
      congruence.
  - destruct (bool_decide (is_Some (fs s !! drop_last4 tf))); [|done].
    pose proof (attempts_os_remove (drop_last4 tf) s) as R2.
    destruct (os_remove (drop_last4 tf) s) as [[[]|e2] s2]; cbn in *;
      congruence.
Qed.

(** The [except] block never returns. *)
Lemma download_audio_except_raises temp_file e s :
  ∃ e' s', download_audio_except temp_file e s = (Raise e', s').
Proof.
  unfold download_audio_except, os_path_exists. munfold.
  destruct temp_file as [tf|]; [|eauto].
  destruct (truthy tf); [|eauto].
  destruct (bool_decide (is_Some (fs s !! tf))).
  - destruct (os_remove tf s) as [[[]|e1] s1]; cbn in *; [|eauto].
    destruct (bool_decide (is_Some (fs s1 !! drop_last4 tf))); [|eauto].
    destruct (os_remove (drop_last4 tf) s1) as [[[]|e2] s2]; eauto.
  - destruct (bool_decide (is_Some (fs s !! drop_last4 tf))); [|eauto].
    destruct (os_remove (drop_last4 tf) s) as [[[]|e2] s2]; eauto.
Qed.

(** When neither removal can raise, the [except] block removes what is
    at the two paths and raises the download error that embeds the
    message of the original exception. *)
Lemma download_audio_except_deletable tf e s :
  deletable tf (fs s) = true → deletable (drop_last4 tf) (fs s) = true →
  truthy tf = true →
  ∃ s',
    download_audio_except (Some tf) e s
    = (Raise (Exc ValueError ("Error downloading audio: " +:+ exc_msg e)), s')
    ∧ fs s' !! tf = None
    ∧ fs s' !! drop_last4 tf = None.
Proof.
  intros D1 D2 Htf. unfold download_audio_except, os_path_exists. munfold.
  rewrite Htf.
  destruct (bool_decide (is_Some (fs s !! tf))) eqn:Hex; cbn.
  - apply bool_decide_eq_true in Hex.
    destruct (os_remove_deletable tf s Hex D1) as (s1 & -> & F1).
    assert (deletable (drop_last4 tf) (fs s1) = true) as D2'.
    { unfold deletable in *. rewrite F1.
      destruct (delete tf (fs s) !! drop_last4 tf) as [f|] eqn:Hf; [|done].
      apply lookup_delete_Some in Hf as [_ Hf]. by rewrite Hf in D2. }
    destruct (bool_decide (is_Some (fs s1 !! drop_last4 tf))) eqn:Hex'; cbn.
    + apply bool_decide_eq_true in Hex'.
      destruct (os_remove_deletable _ s1 Hex' D2') as (s2 & -> & F2).
      eexists. split; [reflexivity|]. rewrite F2, F1. split.
      * apply lookup_delete_None. right. apply lookup_delete_eq.
      * apply lookup_delete_eq.
    + apply bool_decide_eq_false in Hex'.
      eexists. split; [reflexivity|]. split.
      * rewrite F1. apply lookup_delete_eq.
      * by apply eq_None_not_Some.
  - apply bool_decide_eq_false in Hex. apply eq_None_not_Some in Hex.
    destruct (bool_decide (is_Some (fs s !! drop_last4 tf))) eqn:Hex'; cbn.
    + apply bool_decide_eq_true in Hex'.
      destruct (os_remove_deletable _ s Hex' D2) as (s2 & -> & F2).
      eexists. split; [reflexivity|]. rewrite F2. split.
      * apply lookup_delete_None. by right.
      * apply lookup_delete_eq.
    + apply bool_decide_eq_false in Hex'.
      eexists. split; [reflexivity|]. split; [done|].
      by apply eq_None_not_Some.
Qed.

(** [download_audio] once the temp directory is known and the loop has
    ended. *)
Lemma download_audio_after_loop url s temp_dir b s1 :
  gettempdir (world s) = Ret temp_dir →
  let temp_file := temp_file_path temp_dir (time_now (world s)) in
  try_formats url temp_file format_options s = (Ret b, s1) →
  download_audio url s
  = if b then
      if bool_decide (is_Some (fs s1 !! temp_file)) then (Ret temp_file, s1)
      else download_audio_except (Some temp_file)
             (Exc FileNotFoundError "Downloaded audio file not found") s1
    else download_audio_except (Some temp_file)
           (Exc ValueError "All download attempts failed") s1.
Proof.
  intros Hdir tf Hloop.
  unfold download_audio, tempfile_gettempdir, time_time. munfold.
  rewrite Hdir. fold tf.
  unfold download_audio_attempts, os_path_exists. munfold. rewrite Hloop.
  destruct b; [|done]. by destruct (bool_decide _).
Qed.

(** C3: the download attempts that a call of [download_audio] adds to
    the trace are the format options in their fixed order, either all
    five failed, or the options before the first success failed and then
    that success, with nothing after it.  (There is no attempt at all
    when the temp directory cannot be determined.) *)
Theorem download_audio_format_order url s :
  format_options =
    ["bestaudio/best"; "worstaudio/worst"; "bestaudio[ext=m4a]";
     "bestaudio[ext=mp3]"; "140"]
  ∧ ∃ l,
      attempts (trace (download_audio url s).2) = attempts (trace s) ++ l
      ∧ ((∃ e, gettempdir (world s) = Raise e ∧ l = [])
         ∨ l = failed <$> format_options
         ∨ ∃ k f, format_options !! k = Some f
                  ∧ l = (failed <$> take k format_options) ++ [(f, true)]).
Proof.
  split; [reflexivity|].
  unfold download_audio, tempfile_gettempdir, time_time. munfold.
  destruct (gettempdir (world s)) as [temp_dir|e] eqn:Hdir.
  - set (tf := temp_file_path _ _).
    unfold download_audio_attempts, os_path_exists. munfold.
    destruct (attempts_try_formats url tf format_options s)
      as (b & s1 & E1 & l & T1 & Hl).
    rewrite E1. exists l. destruct b.
    + split; [|by right; right].
      destruct (bool_decide _); cbn; [done|].
      by rewrite attempts_download_audio_except.
    + split; [|by right; left].
      by rewrite attempts_download_audio_except.
  - exists []. split; [|left; by exists e].
    rewrite attempts_download_audio_except. by rewrite app_nil_r.
Qed.

(** C2, as amended: when the loop over the format options ends without a
    success and what is then at the expected output path and at its
    pre-extension variant can be removed, [download_audio] raises the
    download error for "All download attempts failed" and leaves no file
    at either path. *)
Theorem download_audio_exhausted url s temp_dir s1 :
  gettempdir (world s) = Ret temp_dir →
  let temp_file := temp_file_path temp_dir (time_now (world s)) in
  try_formats url temp_file format_options s = (Ret false, s1) →
  deletable temp_file (fs s1) = true →
  deletable (drop_last4 temp_file) (fs s1) = true →
  ∃ s',
    download_audio url s
    = (Raise (Exc ValueError
               ("Error downloading audio: " +:+ "All download attempts failed")),
       s')
    ∧ fs s' !! temp_file = None
    ∧ fs s' !! drop_last4 temp_file = None.
Proof.
  intros Hdir tf Hloop D1 D2.
  rewrite (download_audio_after_loop url s temp_dir false s1 Hdir Hloop).
  apply (download_audio_except_deletable tf
           (Exc ValueError "All download attempts failed") s1 D1 D2).
  apply temp_file_path_truthy.
Qed.

(** X15: when the extractor reports a success and there is no file at
    the expected path, the download fails with the "not found" error, as
    long as what is at the pre-extension path can be removed. *)
Lemma download_audio_missing_output url s temp_dir s1 :
  gettempdir (world s) = Ret temp_dir →
  let temp_file := temp_file_path temp_dir (time_now (world s)) in
  try_formats url temp_file format_options s = (Ret true, s1) →
  fs s1 !! temp_file = None →
  deletable (drop_last4 temp_file) (fs s1) = true →
  ∃ s',
    download_audio url s
    = (Raise (Exc ValueError
         ("Error downloading audio: " +:+ "Downloaded audio file not found")),
       s').
Proof.
  intros Hdir tf Hloop Hnone D2.
  rewrite (download_audio_after_loop url s temp_dir true s1 Hdir Hloop).
  fold tf. rewrite bool_decide_eq_false_2 by (rewrite Hnone; by intros [? ?]).
  destruct (download_audio_except_deletable tf
    (Exc FileNotFoundError "Downloaded audio file not found") s1)
    as (s2 & -> & _); [|done|apply temp_file_path_truthy|eauto].
  unfold deletable. by rewrite Hnone.
Qed.

(** What [download_audio] returns is the path it built, and the file is
    there. *)
Lemma download_audio_returns url s p s' :
  download_audio url s = (Ret p, s') →
  ∃ temp_dir,
    gettempdir (world s) = Ret temp_dir
    ∧ p = temp_file_path temp_dir (time_now (world s))
    ∧ is_Some (fs s' !! p).
Proof.
  destruct (gettempdir (world s)) as [temp_dir|e] eqn:Hdir.
  - destruct (attempts_try_formats url
                (temp_file_path temp_dir (time_now (world s)))
                format_options s) as (b & s1 & Hloop & _).
    rewrite (download_audio_after_loop url s temp_dir b s1 Hdir Hloop).
    set (tf := temp_file_path _ _). destruct b.
    + destruct (bool_decide (is_Some (fs s1 !! tf))) eqn:Hex.
      * intros [= <- <-]. exists temp_dir. split; [done|]. split; [done|].
        by apply bool_decide_eq_true in Hex.
      * destruct (download_audio_except_raises (Some tf)
          (Exc FileNotFoundError "Downloaded audio file not found") s1)
          as (e' & s2 & ->). done.
    + destruct (download_audio_except_raises (Some tf)
          (Exc ValueError "All download attempts failed") s1)
          as (e' & s2 & ->). done.
  - unfold download_audio, tempfile_gettempdir. munfold. rewrite Hdir.
    destruct (download_audio_except_raises None e s) as (e' & s2 & ->). done.
Qed.

(** ** [transcribe_audio] *)

Lemma model_transcribe_call_fs m p args s :
  fs (model_transcribe_call m p args s).2 = fs s.
Proof.
  unfold model_transcribe_call, transcribe. munfold.
  destruct m as [h|]; [|done].
  by destruct (model_transcribe _ _ _ _ _) as [[t|e] w].
Qed.

(** C4: on a path that is not on disk [transcribe_audio] raises the
    transcription error that embeds "Audio file not found at <path>" and
    leaves the whole state as it was; on a file of size zero it raises
    the one that embeds "Audio file is empty", after one attempt to
    remove the file.  In both cases the fields of the model, the world
    and the model calls of the trace are untouched: neither the loader
    nor the model was called. *)
Theorem transcribe_audio_rejects p s :
  (fs s !! p = None →
   transcribe_audio p s
   = (Raise (Exc ValueError
        ("Error transcribing audio: " +:+ "Audio file not found at " +:+ p)),
      s))
  ∧ (∀ f, fs s !! p = Some f → st_size f = 0 →
     ∃ s',
       transcribe_audio p s
       = (Raise (Exc ValueError
            ("Error transcribing audio: " +:+ "Audio file is empty")), s')
       ∧ model s' = model s
       ∧ _model_loaded s' = _model_loaded s
       ∧ world s' = world s
       ∧ model_events (trace s') = model_events (trace s)
       ∧ removals (trace s') = removals (trace s) ++ [(p, removable f)]).
Proof.
  split.
  - intros Hp. unfold transcribe_audio, os_path_exists. munfold.
    assert (bool_decide (is_Some (fs s !! p)) = false) as Hex
      by (rewrite Hp; apply bool_decide_eq_false_2; by intros [? ?]).
    rewrite Hex. cbn. by rewrite Hex.
  - intros f Hp Hz. unfold transcribe_audio, os_path_exists, os_path_getsize.
    munfold.
    assert (bool_decide (is_Some (fs s !! p)) = true) as Hex
      by (rewrite Hp; by apply bool_decide_eq_true_2).
    rewrite Hex. cbn. rewrite Hp. cbn.
    rewrite (bool_decide_eq_true_2 _ Hz). cbn. rewrite Hex.
    unfold os_remove. rewrite Hp. munfold.
    destruct (removable f); cbn; eexists; (split; [reflexivity|]); cbn;
      unfold model_events, removals; rewrite List.filter_app, omap_app; cbn;
      by rewrite app_nil_r.
Qed.

(** ** [process_video] *)

(** The [except] block always raises the processing error, whether or
    not its removal of the audio file works. *)
Lemma process_video_except_raises audio_path e s :
  ∃ s',
    process_video_except audio_path e s
    = (Raise (Exc ValueError ("Error processing video: " +:+ exc_msg e)), s').
Proof.
  unfold process_video_except, os_path_exists. munfold.
  destruct audio_path as [p|]; [|eauto].
  destruct (truthy p); [|eauto].
  destruct (bool_decide _); [|eauto].
  destruct (os_remove p s) as [[[]|e1] s1]; eauto.
Qed.

(** [process_video] after the download step, with the test on the path
    still in place. *)
Lemma process_video_after_download url s :
  process_video url s
  = match download_audio url s with
    | (Ret p, s1) =>
        if truthy p
        then try_except (transcribe_audio p) (process_video_except (Some p)) s1
        else process_video_except (Some p)
               (Exc ValueError "Failed to download audio") s1
    | (Raise e, s1) => process_video_except None e s1
    end.
Proof.
  unfold process_video. munfold.
  destruct (download_audio url s) as [[p|e] s1]; [|done].
  destruct (truthy p); cbn; [|done].
  by destruct (transcribe_audio p s1) as [[t|e] s2].
Qed.

(** C10: a path returned by [download_audio] is never empty, so the
    "Failed to download audio" branch of [process_video] is dead: after
    a download that returns, [process_video] is the transcription of the
    path under its handler, and after one that raises it is the
    processing error that embeds the message of the download's
    exception. *)
Theorem process_video_download_branch url s :
  match download_audio url s with
  | (Ret p, s1) =>
      p ≠ ""
      ∧ truthy p = true
      ∧ process_video url s
        = try_except (transcribe_audio p) (process_video_except (Some p)) s1
  | (Raise e, s1) =>
      process_video url s
      = (Raise (Exc ValueError ("Error processing video: " +:+ exc_msg e)), s1)
  end.
Proof.
  rewrite process_video_after_download.
  destruct (download_audio url s) as [[p|e] s1] eqn:Hd; [|done].
  destruct (download_audio_returns _ _ _ _ Hd) as (temp_dir & _ & -> & _).
  pose proof (temp_file_path_truthy temp_dir (time_now (world s))) as Ht.
  rewrite Ht. split; [by apply truthy_nonempty|done].
Qed.

(** X11: whatever goes wrong in [process_video], what leaves it is one
    [ValueError] whose message is "Error processing video: " followed by
    the message of the exception that reached the handler, and that
    exception is the one [download_audio] raised, or the one
    [transcribe_audio] raised on the downloaded path; the cleanup of the
    handler never puts another in its place. *)
Lemma process_video_raises_wrapped url s e s' :
  process_video url s = (Raise e, s') →
  ∃ e0,
    e = Exc ValueError ("Error processing video: " +:+ exc_msg e0)
    ∧ ((∃ s1, download_audio url s = (Raise e0, s1))
       ∨ (∃ p s1 s2,
            download_audio url s = (Ret p, s1)
            ∧ transcribe_audio p s1 = (Raise e0, s2))).
Proof.
  rewrite process_video_after_download.
  destruct (download_audio url s) as [[p|e0] s1] eqn:Hd.
  - destruct (download_audio_returns _ _ _ _ Hd) as (temp_dir & _ & Hp & _).
    rewrite Hp, temp_file_path_truthy, <-Hp. munfold.
    destruct (transcribe_audio p s1) as [[t|e1] s2] eqn:Ht; [done|].
    destruct (process_video_except_raises (Some p) e1 s2) as (s3 & ->).
    intros [= <- <-]. exists e1. split; [done|]. right. by exists p, s1, s2.
  - destruct (process_video_except_raises None e0 s1) as (s3 & ->).
    intros [= <- <-]. exists e0. split; [done|]. left. by exists s1.
Qed.

(** X16: when every format fails and the leftovers can be removed, the
    error that leaves [process_video] names both stages. *)
Lemma process_video_exhausted url s temp_dir s1 :
  gettempdir (world s) = Ret temp_dir →
  let temp_file := temp_file_path temp_dir (time_now (world s)) in
  try_formats url temp_file format_options s = (Ret false, s1) →
  deletable temp_file (fs s1) = true →
  deletable (drop_last4 temp_file) (fs s1) = true →
  ∃ s',
    process_video url s
    = (Raise (Exc ValueError
         ("Error processing video: " +:+ "Error downloading audio: "
          +:+ "All download attempts failed")),
       s').
Proof.
  intros Hdir tf Hloop D1 D2.
  rewrite process_video_after_download.
  rewrite (download_audio_after_loop url s temp_dir false s1 Hdir Hloop).
  cbv beta iota zeta. fold tf.
  destruct (download_audio_except_deletable tf
    (Exc ValueError "All download attempts failed") s1 D1 D2)
    as (s2 & -> & _); [apply temp_file_path_truthy|].
  apply process_video_except_raises.
Qed.

(** ** Paths *)

Lemma append_cons x a b : String x a +:+ b = String x (a +:+ b).
Proof. reflexivity. Qed.

Lemma append_assoc a b c : (a +:+ b) +:+ c = a +:+ (b +:+ c).
Proof. induction a as [|x a IH]; [done|]. by rewrite !append_cons, IH. Qed.

Lemma length_append a b :
  String.length (a +:+ b) = (String.length a + String.length b)%nat.
Proof.
  induction a as [|x a IH]; [done|]. rewrite append_cons. cbn. by rewrite IH.
Qed.

Lemma substring_append_l a b :
  String.substring 0 (String.length a) (a +:+ b) = a.
Proof.
  induction a as [|x a IH]; [by destruct b|].
  rewrite append_cons. cbn. by rewrite IH.
Qed.

Lemma drop_last4_mp3 a : drop_last4 (a +:+ ".mp3") = a.
Proof.
  unfold drop_last4. rewrite length_append.
  replace (String.length a + String.length ".mp3" - 4)%nat
    with (String.length a) by (cbn; lia).
  apply substring_append_l.
Qed.

Lemma append_inj_r a b c : a +:+ c = b +:+ c → a = b.
Proof.
  revert b. induction a as [|x a IH]; intros [|y b] Heq.
  - done.
  - apply (f_equal String.length) in Heq.
    change ("" +:+ c) with c in Heq.
    rewrite append_cons in Heq. cbn in Heq.
    rewrite length_append in Heq. lia.
  - apply (f_equal String.length) in Heq.
    change ("" +:+ c) with c in Heq.
    rewrite append_cons in Heq. cbn in Heq.
    rewrite length_append in Heq. lia.
  - rewrite !append_cons in Heq. injection Heq as -> Heq.
    f_equal. by apply IH.
Qed.

(** The path of the temporary file, spelled out. *)
Lemma temp_file_path_eq temp_dir timestamp :
  temp_file_path temp_dir timestamp
  = (dir_prefix temp_dir +:+ "audio_" +:+ pretty timestamp) +:+ ".mp3".
Proof.
  unfold temp_file_path, os_path_join, dir_prefix.
  change (startswith ("audio_" +:+ pretty timestamp +:+ ".mp3") "/")
    with false.
  cbv iota.
  destruct (negb (truthy temp_dir) || endswith temp_dir "/");
    by rewrite !append_assoc.
Qed.

(** X1: the output template handed to the extractor is the temporary
    path without its ".mp3": appending the extension the post-processor
    adds gives back exactly the path [download_audio] checks and returns.
    The template itself is a different path, and the format is passed on
    unchanged. *)
Theorem ydl_opts_outtmpl_roundtrip temp_dir timestamp format_option :
  let temp_file := temp_file_path temp_dir timestamp in
  let opts := _get_ydl_opts temp_file format_option in
  outtmpl opts +:+ ".mp3" = temp_file
  ∧ outtmpl opts ≠ temp_file
  ∧ format opts = format_option.
Proof.
  cbv zeta. rewrite temp_file_path_eq.
  change (outtmpl (_get_ydl_opts ?t _)) with (drop_last4 t).
  rewrite drop_last4_mp3. split; [done|]. split; [|done].
  generalize (dir_prefix temp_dir +:+ "audio_" +:+ pretty timestamp).
  intros stem Heq. apply (f_equal String.length) in Heq.
  rewrite length_append in Heq. cbn in Heq. lia.
Qed.

(** X2: in one temp directory, two timestamps give the same temporary
    path exactly when they are the same second. *)
Theorem temp_file_path_inj temp_dir t1 t2 :
  temp_file_path temp_dir t1 = temp_file_path temp_dir t2 ↔ t1 = t2.
Proof.
  split; [|by intros ->].
  rewrite !temp_file_path_eq. intros Heq.
  apply append_inj_r in Heq.
  apply (inj (String.app _)) in Heq.
  apply (inj (String.app _)) in Heq.
  by apply (inj pretty) in Heq.
Qed.

(** ** What the download leaves alone *)

Lemma model_events_snoc t e :
  model_events (t ++ [e])
  = model_events t ++ (if is_model_event e then [e] else []).
Proof. unfold model_events. by rewrite List.filter_app. Qed.

Lemma model_view_os_remove p s : model_view (os_remove p s).2 = model_view s.
Proof.
  unfold os_remove, model_view, self_fields.
  destruct (fs s !! p) as [f|]; [destruct (removable f)|];
    munfold; cbn; rewrite model_events_snoc; cbn; by rewrite app_nil_r.
Qed.

Lemma model_view_try_download url temp_file format_option s :
  model_view (_try_download url temp_file format_option s).2 = model_view s.
Proof.
  unfold _try_download, YoutubeDL_download, model_view, self_fields. munfold.
  destruct (ydl_download _ _ _ _) as [[[u|e] w] d]; cbn;
    rewrite !model_events_snoc; cbn; by rewrite ?app_nil_r.
Qed.

Lemma model_view_try_formats url temp_file options s :
  model_view (try_formats url temp_file options s).2 = model_view s.
Proof.
  revert s. induction options as [|f rest IH]; intros s; [done|].
  cbn [try_formats]. munfold.
  pose proof (model_view_try_download url temp_file f s) as H1.
  destruct (_try_download url temp_file f s) as [[[]|e] s1]; cbn in *;
    [done| |done].
  by rewrite IH.
Qed.

Lemma model_view_download_audio_except temp_file e s :
  model_view (download_audio_except temp_file e s).2 = model_view s.
Proof.
  unfold download_audio_except, os_path_exists. munfold.
  destruct temp_file as [tf|]; [|done].
  destruct (truthy tf); [|done].
  destruct (bool_decide (is_Some (fs s !! tf))).
  - pose proof (model_view_os_remove tf s) as R1.
    destruct (os_remove tf s) as [[[]|e1] s1]; cbn in *; [|done].
    destruct (bool_decide (is_Some (fs s1 !! drop_last4 tf))); [|done].
    pose proof (model_view_os_remove (drop_last4 tf) s1) as R2.
    destruct (os_remove (drop_last4 tf) s1) as [[[]|e2] s2]; cbn in *;
      congruence.
  - destruct (bool_decide (is_Some (fs s !! drop_last4 tf))); [|done].
    pose proof (model_view_os_remove (drop_last4 tf) s) as R2.
    destruct (os_remove (drop_last4 tf) s) as [[[]|e2] s2]; cbn in *;
      congruence.
Qed.

Lemma model_view_download_audio url s :
  model_view (download_audio url s).2 = model_view s.
Proof.
  unfold download_audio, tempfile_gettempdir, time_time. munfold.
  destruct (gettempdir (world s)) as [temp_dir|e].
  - set (tf := temp_file_path _ _).
    unfold download_audio_attempts, os_path_exists. munfold.
    pose proof (model_view_try_formats url tf format_options s) as H1.
    destruct (try_formats url tf format_options s) as [[[]|e] s1]; cbn in *.
    + destruct (bool_decide _); cbn; [done|].
      by rewrite model_view_download_audio_except.
    + by rewrite model_view_download_audio_except.
    + by rewrite model_view_download_audio_except.
  - by rewrite model_view_download_audio_except.
Qed.

(** X6: [download_audio] leaves the fields of [self] as they are and
    calls neither the loader nor the model, whatever its outcome. *)
Theorem download_audio_keeps_model url s :
  self_fields (download_audio url s).2 = self_fields s
  ∧ model_events (trace (download_audio url s).2) = model_events (trace s).
Proof.
  pose proof (model_view_download_audio url s) as Hv.
  split; [exact (f_equal fst Hv)|exact (f_equal snd Hv)].
Qed.

(** ** More on [load_model] *)

Lemma loader_calls_model_events t :
  loader_calls (model_events t) = loader_calls t.
Proof.
  unfold loader_calls, model_events. f_equal.
  induction t as [|e t IH]; [done|]. cbn.
  destruct e; cbn; by rewrite ?IH.
Qed.

Lemma model_view_loader_calls s s' :
  model_view s' = model_view s →
  loader_calls (trace s') = loader_calls (trace s).
Proof.
  intros Hv. apply (f_equal snd) in Hv. cbn in Hv.
  by rewrite <-(loader_calls_model_events (trace s')), Hv,
    loader_calls_model_events.
Qed.

Lemma model_view_ready s s' :
  model_view s' = model_view s → model_ready s' = model_ready s.
Proof.
  intros Hv. apply (f_equal fst) in Hv. unfold model_view, self_fields in Hv.
  cbn in Hv. injection Hv as Hm _ _ Hl. unfold model_ready.
  by rewrite Hm, Hl.
Qed.

(** The three ways a call of [load_model] can go. *)
Lemma load_model_cases s :
  (_model_loaded s = true ∧ load_model s = (Ret (model s), s))
  ∨ (_model_loaded s = false
     ∧ world (load_model s).2
       = (whisper_load_model (model_size s) (dev s) (world s)).2
     ∧ fs (load_model s).2 = fs s
     ∧ loader_calls (trace (load_model s).2) = S (loader_calls (trace s))
     ∧ match (whisper_load_model (model_size s) (dev s) (world s)).1 with
       | Ret h =>
           (load_model s).1 = Ret (Some h)
           ∧ self_fields (load_model s).2 = (Some h, model_size s, dev s, true)
       | Raise e =>
           (load_model s).1 = Raise e
           ∧ self_fields (load_model s).2 = self_fields s
       end).
Proof.
  unfold load_model, whisper_load, self_fields. munfold.
  destruct (_model_loaded s) eqn:Hl; cbn; [by left|right].
  split; [done|].
  destruct (dev s) eqn:Hd; cbn;
    destruct (whisper_load_model _ _ _) as [[h|e] w]; cbn;
    rewrite ?loader_calls_snoc; cbn; rewrite ?Hl, ?Hd;
    (split; [done|]); (split; [done|]); (split; [lia|done]).
Qed.

(** X3: when the loader raises on an instance that has no model yet,
    [load_model] raises that same exception, unwrapped; the fields of
    [self] are unchanged (the flag stays unset, so the next call tries
    again) and the disk is untouched. *)
Theorem load_model_failure_propagates s e w :
  _model_loaded s = false →
  whisper_load_model (model_size s) (dev s) (world s) = (Raise e, w) →
  ∃ s',
    load_model s = (Raise e, s')
    ∧ self_fields s' = self_fields s
    ∧ world s' = w
    ∧ fs s' = fs s
    ∧ loader_calls (trace s') = S (loader_calls (trace s)).
Proof.
  intros Hl Hw. destruct (load_model_cases s) as [[Hl' _]|[_ Hc]];
    [congruence|].
  destruct Hc as (Hworld & Hfs & Hcalls & Hrun).
  rewrite Hw in Hworld, Hrun. cbn in Hworld, Hrun. destruct Hrun as [Hrun Hf].
  exists (load_model s).2. split; [|done].
  rewrite <-Hrun. by destruct (load_model s).
Qed.

Lemma load_model_ready s :
  model_ready s = true → model_ready (load_model s).2 = true.
Proof.
  intros Hr. destruct (load_model_cases s) as [[_ ->]|[_ Hc]]; [done|].
  destruct Hc as (_ & _ & _ & Hrun).
  destruct (whisper_load_model _ _ _).1 as [h|e];
    destruct Hrun as [_ Hf]; unfold self_fields in Hf;
    injection Hf as Hm _ _ Hl; unfold model_ready in *.
  - by rewrite Hm, Hl.
  - by rewrite Hm, Hl.
Qed.

Lemma load_model_ready_handle s m s' :
  model_ready s = true → load_model s = (Ret m, s') → is_Some m.
Proof.
  intros Hr. destruct (load_model_cases s) as [[Hl ->]|[_ Hc]].
  - intros [= <- <-]. unfold model_ready in Hr. rewrite Hl in Hr. cbn in Hr.
    by apply bool_decide_eq_true in Hr.
  - destruct Hc as (_ & _ & _ & Hrun). intros Hs. rewrite Hs in Hrun.
    destruct (whisper_load_model _ _ _).1 as [h|e];
      destruct Hrun as [[=] _]. subst. eauto.
Qed.

Lemma load_model_loader_calls s :
  (loader_calls (trace (load_model s).2) ≤ S (loader_calls (trace s)))%nat
  ∧ (_model_loaded s = true →
     model_view (load_model s).2 = model_view s).
Proof.
  destruct (load_model_cases s) as [[Hl ->]|[Hl Hc]]; cbn.
  - split; [lia|done].
  - split; [|congruence].
    destruct Hc as (_ & _ & -> & _). lia.
Qed.

(** ** More on [transcribe_audio] *)

Lemma model_view_model_transcribe_call m p args s :
  self_fields (model_transcribe_call m p args s).2 = self_fields s
  ∧ loader_calls (trace (model_transcribe_call m p args s).2)
    = loader_calls (trace s).
Proof.
  unfold model_transcribe_call, transcribe, self_fields. munfold.
  destruct m as [h|]; [|done].
  destruct (model_transcribe _ _ _ _ _) as [[t|e] w]; cbn;
    by rewrite loader_calls_snoc, Nat.add_0_r.
Qed.

(** [transcribe_audio], stage by stage. *)
Lemma transcribe_audio_stages p s :
  transcribe_audio p s
  = match fs s !! p with
    | None =>
        transcribe_audio_except p
          (Exc FileNotFoundError ("Audio file not found at " +:+ p)) s
    | Some f =>
        if bool_decide (st_size f = 0)
        then transcribe_audio_except p (Exc ValueError "Audio file is empty") s
        else
          match load_model s with
          | (Ret m, s1) =>
              match model_transcribe_call m p whisper_args s1 with
              | (Ret result, s2) => transcribe_audio_finish p result s2
              | (Raise e, s2) => transcribe_audio_except p e s2
              end
          | (Raise e, s1) => transcribe_audio_except p e s1
          end
    end.
Proof.
  unfold transcribe_audio, transcribe_audio_except, transcribe_audio_finish,
    os_path_exists, os_path_getsize, whisper_args.
  munfold.
  destruct (fs s !! p) as [f|] eqn:Hf.
  - assert (bool_decide (is_Some (Some f)) = true) as Hex
      by (by apply bool_decide_eq_true_2).
    rewrite Hex. cbn. rewrite Hf. cbn.
    destruct (bool_decide (st_size f = 0)); cbn; [by rewrite Hf, Hex|].
    destruct (load_model s) as [[m|e1] s1]; cbn; [|done].
    destruct (model_transcribe_call _ _ _ s1) as [[r|e2] s2]; cbn; [|done].
    destruct (os_remove p s2) as [[[]|e3] s3]; cbn;
      by destruct (dev s3).
  - assert (bool_decide (is_Some (@None file)) = false) as Hex
      by (apply bool_decide_eq_false_2; by intros [? ?]).
    rewrite Hex. cbn. by rewrite Hf, Hex.
Qed.

(** [os.remove] on [p] and the file at [p]: gone when it could be
    removed, as it was otherwise. *)
Lemma os_remove_fate p s :
  fs (os_remove p s).2 !! p
  = if deletable p (fs s) then None else fs s !! p.
Proof.
  unfold os_remove, deletable.
  destruct (fs s !! p) as [f|] eqn:Hf; [destruct (removable f)|];
    munfold; cbn; [apply lookup_delete_eq|done..].
Qed.

Lemma os_remove_world p s : world (os_remove p s).2 = world s.
Proof.
  unfold os_remove. destruct (fs s !! p) as [f|];
    [destruct (removable f)|]; done.
Qed.

(** The [except] block: one removal at most, swallowed if it raises, then
    the transcription error. *)
Lemma transcribe_audio_except_spec p e s :
  ∃ s',
    transcribe_audio_except p e s
    = (Raise (Exc ValueError ("Error transcribing audio: " +:+ exc_msg e)), s')
    ∧ model_view s' = model_view s
    ∧ world s' = world s
    ∧ fs s' !! p = if deletable p (fs s) then None else fs s !! p.
Proof.
  unfold transcribe_audio_except, os_path_exists. munfold.
  destruct (bool_decide (is_Some (fs s !! p))) eqn:Hex.
  - pose proof (model_view_os_remove p s) as Hv.
    pose proof (os_remove_world p s) as Hw.
    pose proof (os_remove_fate p s) as Hf.
    destruct (os_remove p s) as [[[]|e1] s1]; cbn in *;
      eexists; (split; [reflexivity|done]).
  - apply bool_decide_eq_false in Hex. apply eq_None_not_Some in Hex.
    eexists; split; [reflexivity|]. unfold deletable. by rewrite Hex.
Qed.

(** The end of the [try] block: it returns the text. *)
Lemma transcribe_audio_finish_spec p r s :
  ∃ s',
    transcribe_audio_finish p r s = (Ret (text r), s')
    ∧ model_view s' = model_view s
    ∧ world s' = world s
    ∧ fs s' !! p = if deletable p (fs s) then None else fs s !! p.
Proof.
  unfold transcribe_audio_finish. munfold.
  pose proof (model_view_os_remove p s) as Hv.
  pose proof (os_remove_world p s) as Hw.
  pose proof (os_remove_fate p s) as Hf.
  destruct (os_remove p s) as [[[]|e1] s1]; cbn in *;
    destruct (dev s1) eqn:Hdev; cbn;
    (eexists; split; [reflexivity|]); cbn;
    unfold model_view, self_fields in *; cbn;
    rewrite ?model_events_snoc; cbn; rewrite ?app_nil_r, <-?Hdev; done.
Qed.

Lemma self_fields_ready s s' :
  self_fields s' = self_fields s → model_ready s' = model_ready s.
Proof.
  unfold self_fields, model_ready. intros [= Hm _ _ Hl]. by rewrite Hm, Hl.
Qed.

Lemma model_transcribe_call_world h p args s r w :
  model_transcribe h p args (world s) (fs s) = (r, w) →
  ∃ s',
    model_transcribe_call (Some h) p args s = (r, s')
    ∧ world s' = w ∧ self_fields s' = self_fields s ∧ fs s' = fs s.
Proof.
  intros Hm. unfold model_transcribe_call, transcribe. rewrite Hm. munfold.
  destruct r; eexists; (split; [reflexivity|done]).
Qed.

(** X7: on an existing file of non-zero size, when the model loads and
    answers, [transcribe_audio] returns the text field of the answer;
    the model is called with the handle [load_model] returned and with
    half precision off, language "en", task "transcribe"; the fields of
    [self] are those [load_model] left, and the file is gone if it could
    be removed and unchanged otherwise. *)
Theorem transcribe_audio_success p s f h s1 r w :
  fs s !! p = Some f →
  st_size f ≠ 0 →
  load_model s = (Ret (Some h), s1) →
  model_transcribe h p whisper_args (world s1) (fs s) = (Ret r, w) →
  ∃ s',
    transcribe_audio p s = (Ret (text r), s')
    ∧ world s' = w
    ∧ self_fields s' = self_fields s1
    ∧ fs s' !! p = if removable f then None else Some f.
Proof.
  intros Hf Hz Hload Hm.
  pose proof (load_model_fs s) as F1. rewrite Hload in F1. cbn in F1.
  rewrite transcribe_audio_stages, Hf, bool_decide_eq_false_2, Hload by done.
  rewrite <-F1 in Hm.
  destruct (model_transcribe_call_world h p whisper_args s1 _ _ Hm)
    as (s2 & -> & Hw & Hs & F2).
  destruct (transcribe_audio_finish_spec p r s2) as (s3 & -> & Hv & Hw' & Hfate).
  exists s3. split; [done|]. split; [congruence|]. split.
  - apply (f_equal fst) in Hv. cbn in Hv. congruence.
  - rewrite Hfate. unfold deletable. by rewrite F2, F1, Hf.
Qed.

(** The file at the path of a call of [transcribe_audio], after the
    call: gone when it could be removed, as it was otherwise. *)
Lemma transcribe_audio_fate p s :
  fs (transcribe_audio p s).2 !! p
  = if deletable p (fs s) then None else fs s !! p.
Proof.
  rewrite transcribe_audio_stages.
  destruct (fs s !! p) as [f|] eqn:Hf.
  2:{ destruct (transcribe_audio_except_spec p
        (Exc FileNotFoundError ("Audio file not found at " +:+ p)) s)
        as (s' & -> & _ & _ & Hfate). cbn. by rewrite Hfate, Hf. }
  destruct (bool_decide (st_size f = 0)).
  { destruct (transcribe_audio_except_spec p
      (Exc ValueError "Audio file is empty") s)
      as (s' & -> & _ & _ & Hfate). cbn. by rewrite Hfate, Hf. }
  pose proof (load_model_fs s) as F1.
  destruct (load_model s) as [[m|e1] s1]; cbn in F1.
  2:{ destruct (transcribe_audio_except_spec p e1 s1)
        as (s' & -> & _ & _ & Hfate). cbn. by rewrite Hfate, F1, Hf. }
  pose proof (model_transcribe_call_fs m p whisper_args s1) as F2.
  destruct (model_transcribe_call m p whisper_args s1) as [[r|e2] s2];
    cbn in F2.
  - destruct (transcribe_audio_finish_spec p r s2)
      as (s' & -> & _ & _ & Hfate). cbn. by rewrite Hfate, F2, F1, Hf.
  - destruct (transcribe_audio_except_spec p e2 s2)
      as (s' & -> & _ & _ & Hfate). cbn. by rewrite Hfate, F2, F1, Hf.
Qed.

(** C6, as amended: after a call of [transcribe_audio] that returns a
    text, the source audio file is no longer on disk when [os.remove]
    could delete it, and is still there, unchanged, when it could not.
    Whether it can be deleted has no part in the outcome: on an existing
    file of non-zero size, once the model is loaded and answers, the
    text of the answer is returned. *)
Theorem transcribe_audio_removes_source p s :
  (∀ t s',
     transcribe_audio p s = (Ret t, s') →
     (deletable p (fs s) = true → fs s' !! p = None)
     ∧ (deletable p (fs s) = false →
        is_Some (fs s !! p) ∧ fs s' !! p = fs s !! p))
  ∧ (∀ f h s1 r w,
       fs s !! p = Some f →
       st_size f ≠ 0 →
       load_model s = (Ret (Some h), s1) →
       model_transcribe h p whisper_args (world s1) (fs s) = (Ret r, w) →
       ∃ s',
         transcribe_audio p s = (Ret (text r), s')
         ∧ fs s' !! p = if removable f then None else Some f).
Proof.
  split.
  - intros t s' Hrun. pose proof (transcribe_audio_fate p s) as Hfate.
    rewrite Hrun in Hfate. cbn in Hfate.
    split; intros D; rewrite D in Hfate; [done|]. split; [|done].
    unfold deletable in D. destruct (fs s !! p); [eauto|done].
  - intros f h s1 r w Hf Hz Hload Hm.
    pose proof (load_model_fs s) as F1. rewrite Hload in F1. cbn in F1.
    rewrite transcribe_audio_stages, Hf, bool_decide_eq_false_2, Hload
      by done.
    rewrite <-F1 in Hm.
    destruct (model_transcribe_call_world h p whisper_args s1 _ _ Hm)
      as (s2 & -> & _ & _ & F2).
    destruct (transcribe_audio_finish_spec p r s2)
      as (s3 & -> & _ & _ & Hfate).
    exists s3. split; [done|].
    rewrite Hfate. unfold deletable. by rewrite F2, F1, Hf.
Qed.

(** X8: whatever its outcome, [transcribe_audio] leaves no file at its
    path when what was there could be removed, and leaves the file as it
    was when it could not. *)
Theorem transcribe_audio_consumes p s :
  (deletable p (fs s) = true → fs (transcribe_audio p s).2 !! p = None)
  ∧ (deletable p (fs s) = false →
     fs (transcribe_audio p s).2 !! p = fs s !! p).
Proof.
  pose proof (transcribe_audio_fate p s) as Hfate.
  split; intros D; by rewrite D in Hfate.
Qed.

(** [transcribe_audio] is its [try] block under its [except] block. *)
Lemma transcribe_audio_try_except p :
  transcribe_audio p
  = try_except (transcribe_audio_try p) (transcribe_audio_except p).
Proof. reflexivity. Qed.

(** What the [except] block makes of the outcome of the [try] block: a
    result is passed on, an exception is replaced by the transcription
    error that embeds its message, whatever the cleanup does. *)
Lemma transcribe_audio_raise_shape p s :
  match transcribe_audio_try p s with
  | (Ret t, s0) => transcribe_audio p s = (Ret t, s0)
  | (Raise e0, s0) =>
      ∃ s',
        transcribe_audio p s
        = (Raise (Exc ValueError
             ("Error transcribing audio: " +:+ exc_msg e0)), s')
        ∧ world s' = world s0
        ∧ self_fields s' = self_fields s0
  end.
Proof.
  destruct (transcribe_audio_try p s) as [[t|e0] s0] eqn:Htry.
  - rewrite transcribe_audio_try_except. unfold try_except. by rewrite Htry.
  - destruct (transcribe_audio_except_spec p e0 s0)
      as (s' & Hexc & Hv & Hw & _).
    exists s'. split; [|split; [done|exact (f_equal fst Hv)]].
    rewrite transcribe_audio_try_except. unfold try_except.
    by rewrite Htry.
Qed.

(** X9: an exception leaves [transcribe_audio] exactly when its [try]
    block raises one, and it is then the [ValueError] whose message is
    "Error transcribing audio: " followed by the message of that
    exception, the one that reached the handler; the cleanup of the
    handler never puts another in its place. *)
Theorem transcribe_audio_raises_wrapped p s :
  (∀ e0 s0,
     transcribe_audio_try p s = (Raise e0, s0) →
     ∃ s',
       transcribe_audio p s
       = (Raise (Exc ValueError
            ("Error transcribing audio: " +:+ exc_msg e0)), s')
       ∧ world s' = world s0
       ∧ self_fields s' = self_fields s0)
  ∧ (∀ e s',
       transcribe_audio p s = (Raise e, s') →
       ∃ e0 s0,
         transcribe_audio_try p s = (Raise e0, s0)
         ∧ e = Exc ValueError ("Error transcribing audio: " +:+ exc_msg e0)).
Proof.
  pose proof (transcribe_audio_raise_shape p s) as Hshape. split.
  - intros e0 s0 Htry. by rewrite Htry in Hshape.
  - intros e s' Hrun.
    destruct (transcribe_audio_try p s) as [[t|e0] s0].
    + by rewrite Hshape in Hrun.
    + destruct Hshape as (s1 & Heq & _). rewrite Heq in Hrun.
      injection Hrun as <- <-. by exists e0, s0.
Qed.

(** What [transcribe_audio] does to the model side of the state. *)
Lemma transcribe_audio_frame p s :
  (model_ready s = true → model_ready (transcribe_audio p s).2 = true)
  ∧ (loader_calls (trace (transcribe_audio p s).2)
     ≤ S (loader_calls (trace s)))%nat
  ∧ (_model_loaded s = true →
     loader_calls (trace (transcribe_audio p s).2) = loader_calls (trace s)
     ∧ self_fields (transcribe_audio p s).2 = self_fields s).
Proof.
  rewrite transcribe_audio_stages.
  assert (∀ e, let s' := (transcribe_audio_except p e s).2 in
     (model_ready s = true → model_ready s' = true)
     ∧ (loader_calls (trace s') ≤ S (loader_calls (trace s)))%nat
     ∧ (_model_loaded s = true →
        loader_calls (trace s') = loader_calls (trace s)
        ∧ self_fields s' = self_fields s)) as Hexc.
  { intros e. destruct (transcribe_audio_except_spec p e s)
      as (s' & -> & Hv & _). cbn.
    rewrite (model_view_ready _ _ Hv), (model_view_loader_calls _ _ Hv).
    split; [done|]. split; [lia|]. intros _. split; [done|].
    exact (f_equal fst Hv). }
  destruct (fs s !! p) as [f|]; [|apply Hexc].
  destruct (bool_decide (st_size f = 0)); [apply Hexc|]. clear Hexc.
  pose proof (load_model_ready s) as R1.
  pose proof (load_model_loader_calls s) as [L1 V1].
  destruct (load_model s) as [[m|e1] s1]; cbn in R1, L1, V1.
  2:{ destruct (transcribe_audio_except_spec p e1 s1)
        as (s' & -> & Hv & _). cbn.
      rewrite (model_view_ready _ _ Hv), (model_view_loader_calls _ _ Hv).
      split; [done|]. split; [done|]. intros Hl. specialize (V1 Hl).
      split; [by apply model_view_loader_calls|].
      exact (eq_trans (f_equal fst Hv) (f_equal fst V1)). }
  pose proof (model_view_model_transcribe_call m p whisper_args s1)
    as [S2 L2].
  destruct (model_transcribe_call m p whisper_args s1) as [[r|e2] s2];
    cbn in S2, L2.
  - destruct (transcribe_audio_finish_spec p r s2)
      as (s' & -> & Hv & _). cbn.
    rewrite (model_view_ready _ _ Hv), (model_view_loader_calls _ _ Hv),
      (self_fields_ready _ _ S2), L2.
    split; [done|]. split; [done|]. intros Hl. specialize (V1 Hl).
    split; [by apply model_view_loader_calls|].
    exact (eq_trans (f_equal fst Hv) (eq_trans S2 (f_equal fst V1))).
  - destruct (transcribe_audio_except_spec p e2 s2)
      as (s' & -> & Hv & _). cbn.
    rewrite (model_view_ready _ _ Hv), (model_view_loader_calls _ _ Hv),
      (self_fields_ready _ _ S2), L2.
    split; [done|]. split; [done|]. intros Hl. specialize (V1 Hl).
    split; [by apply model_view_loader_calls|].
    exact (eq_trans (f_equal fst Hv) (eq_trans S2 (f_equal fst V1))).
Qed.

(** X10: one call of [transcribe_audio] calls the loader once at most,
    and on an instance whose model is loaded it does not call it and
    leaves the fields of [self] as they are. *)
Theorem transcribe_audio_loads_once p s :
  (loader_calls (trace (transcribe_audio p s).2)
   ≤ S (loader_calls (trace s)))%nat
  ∧ (_model_loaded s = true →
     loader_calls (trace (transcribe_audio p s).2) = loader_calls (trace s)
     ∧ self_fields (transcribe_audio p s).2 = self_fields s).
Proof.
  destruct (transcribe_audio_frame p s) as (_ & Hle & Hloaded).
  split; [exact Hle|]. intros Hl. by apply Hloaded.
Qed.

(** ** More on [download_audio] *)

Lemma removals_snoc t e :
  removals (t ++ [e]) = removals t ++ option_list (removal_of e).
Proof. unfold removals. rewrite omap_app. cbn. by destruct (removal_of e). Qed.

Lemma removals_try_formats url temp_file options s :
  removals (trace (try_formats url temp_file options s).2)
  = removals (trace s).
Proof.
  revert s. induction options as [|f rest IH]; intros s; [done|].
  cbn [try_formats]. unfold _try_download, YoutubeDL_download. munfold.
  destruct (ydl_download _ _ _ _) as [[[u|e] w] d]; cbn.
  - by rewrite removals_snoc, app_nil_r.
  - rewrite IH. cbn. by rewrite !removals_snoc, !app_nil_r.
Qed.

(** X5: when [download_audio] returns, the result is the temporary path
    built from the temp directory and the clock, the file is on disk,
    nothing has been removed, and the attempts made are failures followed
    by one success. *)
Theorem download_audio_success url s p s' :
  download_audio url s = (Ret p, s') →
  (∃ temp_dir,
     gettempdir (world s) = Ret temp_dir
     ∧ p = temp_file_path temp_dir (time_now (world s)))
  ∧ is_Some (fs s' !! p)
  ∧ removals (trace s') = removals (trace s)
  ∧ ∃ k f,
      format_options !! k = Some f
      ∧ attempts (trace s')
        = attempts (trace s) ++ (failed <$> take k format_options)
          ++ [(f, true)].
Proof.
  intros Hrun.
  destruct (gettempdir (world s)) as [temp_dir|e] eqn:Hdir.
  - pose proof (removals_try_formats url
      (temp_file_path temp_dir (time_now (world s))) format_options s) as Hr.
    destruct (attempts_try_formats url
                (temp_file_path temp_dir (time_now (world s)))
                format_options s) as (b & s1 & Hloop & l & Ht & Hl).
    rewrite (download_audio_after_loop url s temp_dir b s1 Hdir Hloop)
      in Hrun.
    rewrite Hloop in Hr. cbn in Hr.
    set (tf := temp_file_path _ _) in *. destruct b.
    + destruct (bool_decide (is_Some (fs s1 !! tf))) eqn:Hex.
      * injection Hrun as <- <-. apply bool_decide_eq_true in Hex.
        split; [by exists temp_dir|]. split; [done|]. split; [done|].
        destruct Hl as (k & f & Hk & ->). by exists k, f.
      * destruct (download_audio_except_raises (Some tf)
          (Exc FileNotFoundError "Downloaded audio file not found") s1)
          as (e' & s2 & He). by rewrite He in Hrun.
    + destruct (download_audio_except_raises (Some tf)
          (Exc ValueError "All download attempts failed") s1)
          as (e' & s2 & He). by rewrite He in Hrun.
  - revert Hrun. unfold download_audio, tempfile_gettempdir. munfold.
    rewrite Hdir.
    destruct (download_audio_except_raises None e s) as (e' & s2 & ->). done.
Qed.

(** The [except] block clears the expected output path whenever it can
    be removed, whatever happens at the pre-extension path. *)
Lemma download_audio_except_output_gone tf e s :
  truthy tf = true → deletable tf (fs s) = true →
  fs (download_audio_except (Some tf) e s).2 !! tf = None.
Proof.
  intros Htf D1. unfold download_audio_except, os_path_exists. munfold.
  rewrite Htf.
  assert (∀ s1, fs s1 !! tf = None →
            fs (os_remove (drop_last4 tf) s1).2 !! tf = None) as Hkeep.
  { intros s1 Hn. unfold os_remove.
    destruct (fs s1 !! drop_last4 tf) as [f|]; [destruct (removable f)|];
      munfold; cbn; [|done..].
    apply lookup_delete_None. by right. }
  destruct (bool_decide (is_Some (fs s !! tf))) eqn:Hex; cbn.
  - apply bool_decide_eq_true in Hex.
    destruct (os_remove_deletable tf s Hex D1) as (s1 & -> & F1).
    assert (fs s1 !! tf = None) as Hn by (rewrite F1; apply lookup_delete_eq).
    destruct (bool_decide (is_Some (fs s1 !! drop_last4 tf))); cbn; [|done].
    specialize (Hkeep s1 Hn).
    by destruct (os_remove (drop_last4 tf) s1) as [[[]|e2] s2].
  - apply bool_decide_eq_false in Hex. apply eq_None_not_Some in Hex.
    destruct (bool_decide (is_Some (fs s !! drop_last4 tf))); cbn; [|done].
    specialize (Hkeep s Hex).
    by destruct (os_remove (drop_last4 tf) s) as [[[]|e2] s2].
Qed.

(** ** More on [process_video] *)

(** The [except] block of [process_video] deletes at most, and does not
    touch the model. *)
Lemma process_video_except_frame audio_path e s :
  model_view (process_video_except audio_path e s).2 = model_view s
  ∧ ∀ q, fs s !! q = None →
         fs (process_video_except audio_path e s).2 !! q = None.
Proof.
  unfold process_video_except, os_path_exists. munfold.
  destruct audio_path as [p|]; [|done].
  destruct (truthy p); [|done].
  destruct (bool_decide _); [|done].
  pose proof (model_view_os_remove p s) as Hv.
  assert (∀ q, fs s !! q = None → fs (os_remove p s).2 !! q = None) as Hk.
  { intros q Hq. unfold os_remove.
    destruct (fs s !! p) as [f|]; [destruct (removable f)|];
      munfold; cbn; [|done..].
    apply lookup_delete_None. by right. }
  by destruct (os_remove p s) as [[[]|e1] s1].
Qed.

(** X12: [process_video] returns a text exactly when [download_audio]
    returns a path and [transcribe_audio] returns that text on it, and it
    ends in the state [transcribe_audio] left. *)
Theorem process_video_success url s t s2 :
  process_video url s = (Ret t, s2)
  ↔ ∃ p s1,
      download_audio url s = (Ret p, s1)
      ∧ transcribe_audio p s1 = (Ret t, s2).
Proof.
  rewrite process_video_after_download. split.
  - destruct (download_audio url s) as [[p|e] s1] eqn:Hd.
    + destruct (truthy p).
      * munfold. destruct (transcribe_audio p s1) as [[t'|e'] s2'] eqn:Ht.
        -- intros [= <- <-]. by exists p, s1.
        -- by destruct (process_video_except_raises (Some p) e' s2')
             as (s3 & ->).
      * by destruct (process_video_except_raises (Some p)
          (Exc ValueError "Failed to download audio") s1) as (s3 & ->).
    + by destruct (process_video_except_raises None e s1) as (s3 & ->).
  - intros (p & s1 & Hd & Ht). rewrite Hd.
    destruct (download_audio_returns _ _ _ _ Hd) as (temp_dir & _ & Hp & _).
    rewrite Hp, temp_file_path_truthy, <-Hp. munfold. by rewrite Ht.
Qed.

(** X13: after [process_video], whatever its outcome, there is no file
    at the temporary path, provided what the extractor left there could
    be removed. *)
Theorem process_video_leaves_no_audio url s temp_dir b s1 :
  gettempdir (world s) = Ret temp_dir →
  let temp_file := temp_file_path temp_dir (time_now (world s)) in
  try_formats url temp_file format_options s = (Ret b, s1) →
  deletable temp_file (fs s1) = true →
  fs (process_video url s).2 !! temp_file = None.
Proof.
  intros Hdir tf Hloop D1.
  pose proof (temp_file_path_truthy temp_dir (time_now (world s))) as Htf.
  fold tf in Htf.
  rewrite process_video_after_download.
  rewrite (download_audio_after_loop url s temp_dir b s1 Hdir Hloop).
  cbv zeta. fold tf.
  assert (∀ e, fs (let (r, s2) := download_audio_except (Some tf) e s1 in
                   match r with
                   | Ret p => if truthy p
                       then try_except (transcribe_audio p)
                              (process_video_except (Some p)) s2
                       else process_video_except (Some p)
                              (Exc ValueError "Failed to download audio") s2
                   | Raise e' => process_video_except None e' s2
                   end).2 !! tf = None) as Hfail.
  { intros e.
    pose proof (download_audio_except_output_gone tf e s1 Htf D1) as Hg.
    destruct (download_audio_except_raises (Some tf) e s1)
      as (e' & s2 & He). rewrite He in Hg |- *. cbn in Hg.
    by apply process_video_except_frame. }
  destruct b; [|apply Hfail].
  destruct (bool_decide (is_Some (fs s1 !! tf))); [|apply Hfail].
  rewrite Htf. munfold.
  pose proof (transcribe_audio_fate tf s1) as Hc. rewrite D1 in Hc.
  destruct (transcribe_audio tf s1) as [[t|e] s2]; cbn in Hc; [done|].
  by apply process_video_except_frame.
Qed.

(** X14: when the download raises, [process_video] raises the
    processing error that embeds the message of that exception, in the
    state the download left: the fields of [self] are unchanged and
    neither the loader nor the model has been called. *)
Theorem process_video_download_failure url s e s1 :
  download_audio url s = (Raise e, s1) →
  process_video url s
  = (Raise (Exc ValueError ("Error processing video: " +:+ exc_msg e)), s1)
  ∧ self_fields s1 = self_fields s
  ∧ model_events (trace s1) = model_events (trace s).
Proof.
  intros Hd. pose proof (model_view_download_audio url s) as Hv.
  rewrite process_video_after_download, Hd. rewrite Hd in Hv. cbn in Hv.
  split; [done|].
  split; [exact (f_equal fst Hv)|exact (f_equal snd Hv)].
Qed.

(** X4: the flag [_model_loaded] is set only when [model] holds a
    handle.  This holds on a fresh instance and is kept by every method;
    under it, a call of [load_model] that returns, returns a handle (never
    [None]). *)
Theorem model_ready_invariant :
  (∀ d w, model_ready (__init__ d w) = true)
  ∧ ∀ s,
      model_ready s = true →
      model_ready (load_model s).2 = true
      ∧ (∀ m s', load_model s = (Ret m, s') → is_Some m)
      ∧ (∀ url, model_ready (download_audio url s).2 = true)
      ∧ (∀ p, model_ready (transcribe_audio p s).2 = true)
      ∧ (∀ url, model_ready (process_video url s).2 = true).
Proof.
  split; [done|]. intros s Hr.
  split; [by apply load_model_ready|].
  split; [intros m s'; by apply load_model_ready_handle|].
  assert (∀ url, model_ready (download_audio url s).2 = true) as Hdl.
  { intros url. by rewrite (model_view_ready _ _ (model_view_download_audio url s)). }
  split; [done|].
  split; [intros p; by apply transcribe_audio_frame|].
  intros url. specialize (Hdl url).
  rewrite process_video_after_download.
  destruct (download_audio url s) as [[p|e] s1]; cbn in Hdl.
  - destruct (truthy p).
    + munfold.
      pose proof (proj1 (transcribe_audio_frame p s1) Hdl) as Ht.
      destruct (transcribe_audio p s1) as [[t|e] s2]; cbn in Ht; [done|].
      by rewrite (model_view_ready _ _
                    (proj1 (process_video_except_frame (Some p) e s2))).
    + by rewrite (model_view_ready _ _
                    (proj1 (process_video_except_frame (Some p) _ s1))).
  - by rewrite (model_view_ready _ _
                  (proj1 (process_video_except_frame None e s1))).
Qed.

(** X17: when the download returns and the transcription raises [e],
    [process_video] raises the [ValueError] that embeds the message of
    [e]; [e] itself embeds the message of the exception [e0] its [try]
    block raised, so the message names both stages:
    "Error processing video: Error transcribing audio: " followed by the
    message of [e0].  The cleanup of the handler changes neither the
    fields of [self] nor the world. *)
Theorem process_video_transcription_failure url s p s1 e s2 :
  download_audio url s = (Ret p, s1) →
  transcribe_audio p s1 = (Raise e, s2) →
  ∃ e0 s0 s3,
    transcribe_audio_try p s1 = (Raise e0, s0)
    ∧ e = Exc ValueError ("Error transcribing audio: " +:+ exc_msg e0)
    ∧ process_video url s
      = (Raise (Exc ValueError ("Error processing video: " +:+ exc_msg e)), s3)
    ∧ process_video url s
      = (Raise (Exc ValueError
           ("Error processing video: " +:+ "Error transcribing audio: "
            +:+ exc_msg e0)),
         s3)
    ∧ self_fields s3 = self_fields s2
    ∧ world s3 = world s2.
Proof.
  intros Hd Ht.
  pose proof (transcribe_audio_raise_shape p s1) as Hshape.
  destruct (transcribe_audio_try p s1) as [[t|e0] s0];
    [by rewrite Hshape in Ht|].
  destruct Hshape as (s2' & Heq & _). rewrite Heq in Ht.
  injection Ht as <- <-.
  destruct (download_audio_returns _ _ _ _ Hd) as (temp_dir & _ & Hp & _).
  rewrite process_video_after_download, Hd.
  rewrite Hp, temp_file_path_truthy, <-Hp. munfold. rewrite Heq.
  set (e := Exc ValueError ("Error transcribing audio: " +:+ exc_msg e0)).
  destruct (process_video_except_raises (Some p) e s2') as (s3 & Hexc).
  pose proof (process_video_except_frame (Some p) e s2') as [Hv _].
  assert (world (process_video_except (Some p) e s2').2 = world s2') as Hw.
  { unfold process_video_except, os_path_exists. munfold.
    destruct (truthy p); [|done]. destruct (bool_decide _); [|done].
    pose proof (os_remove_world p s2') as Hw.
    by destruct (os_remove p s2') as [[[]|e1] s3']. }
  rewrite Hexc in Hv, Hw |- *. cbn in Hv, Hw.
  exists e0, s0, s3. split; [done|]. split; [done|]. split; [done|].
  split; [done|]. split; [exact (f_equal fst Hv)|done].
Qed.

(** X18: one call of [process_video] calls the loader once at most, and
    on an instance whose model is loaded it does not call it and leaves
    the fields of [self] as they are. *)
Theorem process_video_loads_once url s :
  (loader_calls (trace (process_video url s).2)
   ≤ S (loader_calls (trace s)))%nat
  ∧ (_model_loaded s = true →
     loader_calls (trace (process_video url s).2) = loader_calls (trace s)
     ∧ self_fields (process_video url s).2 = self_fields s).
Proof.
  rewrite process_video_after_download.
  pose proof (model_view_download_audio url s) as Hv.
  pose proof (model_view_loader_calls _ _ Hv) as Hl.
  pose proof (f_equal fst Hv) as Hs. cbn in Hs.
  assert (∀ ap e s1,
    model_view s1 = model_view s →
    let s' := (process_video_except ap e s1).2 in
    (loader_calls (trace s') ≤ S (loader_calls (trace s)))%nat
    ∧ (_model_loaded s = true →
       loader_calls (trace s') = loader_calls (trace s)
       ∧ self_fields s' = self_fields s)) as Hexc.
  { intros ap e s1 H1. cbn.
    pose proof (proj1 (process_video_except_frame ap e s1)) as H2.
    rewrite (model_view_loader_calls _ _ H2), (model_view_loader_calls _ _ H1).
    split; [lia|]. intros _. split; [done|].
    exact (eq_trans (f_equal fst H2) (f_equal fst H1)). }
  destruct (download_audio url s) as [[p|e] s1]; cbn in Hv, Hl, Hs;
    [|by apply Hexc].
  destruct (truthy p); [|by apply Hexc].
  munfold.
  destruct (transcribe_audio_frame p s1) as (_ & Hle & Hloaded).
  assert (_model_loaded s1 = _model_loaded s) as Hflag.
  { unfold self_fields in Hs. by injection Hs. }
  destruct (transcribe_audio p s1) as [[t|e] s2]; cbn in Hle, Hloaded.
  - cbn. rewrite <-Hl, <-Hs. split; [done|]. intros Hld. apply Hloaded.
    by rewrite Hflag.
  - pose proof (proj1 (process_video_except_frame (Some p) e s2)) as H2.
    rewrite (model_view_loader_calls _ _ H2), <-Hl, <-Hs.
    split; [done|]. intros Hld. rewrite <-Hflag in Hld.
    destruct (Hloaded Hld) as [H3 H4]. split; [done|].
    exact (eq_trans (f_equal fst H2) H4).
Qed.

(** ** The arguments of the extractor *)

Lemma extractor_calls_snoc t e :
  extractor_calls (t ++ [e])
  = extractor_calls t ++ option_list (extractor_call_of e).
Proof.
  unfold extractor_calls. rewrite omap_app. cbn.
  by destruct (extractor_call_of e).
Qed.

Lemma extractor_calls_os_remove p s :
  extractor_calls (trace (os_remove p s).2) = extractor_calls (trace s).
Proof.
  unfold os_remove. destruct (fs s !! p) as [f|]; [destruct (removable f)|];
    munfold; cbn; rewrite extractor_calls_snoc; cbn; by rewrite app_nil_r.
Qed.

Lemma extractor_calls_download_audio_except temp_file e s :
  extractor_calls (trace (download_audio_except temp_file e s).2)
  = extractor_calls (trace s).
Proof.
  unfold download_audio_except, os_path_exists. munfold.
  destruct temp_file as [tf|]; [|done].
  destruct (truthy tf); [|done].
  destruct (bool_decide (is_Some (fs s !! tf))).
  - pose proof (extractor_calls_os_remove tf s) as R1.
    destruct (os_remove tf s) as [[[]|e1] s1]; cbn in *; [|done].
    destruct (bool_decide (is_Some (fs s1 !! drop_last4 tf))); [|done].
    pose proof (extractor_calls_os_remove (drop_last4 tf) s1) as R2.
    destruct (os_remove (drop_last4 tf) s1) as [[[]|e2] s2]; cbn in *;
      congruence.
  - destruct (bool_decide (is_Some (fs s !! drop_last4 tf))); [|done].
    pose proof (extractor_calls_os_remove (drop_last4 tf) s) as R2.
    destruct (os_remove (drop_last4 tf) s) as [[[]|e2] s2]; cbn in *;
      congruence.
Qed.

Lemma extractor_calls_try_formats url temp_file options s :
  ∃ n,
    extractor_calls (trace (try_formats url temp_file options s).2)
    = extractor_calls (trace s)
      ++ ((λ f, (url, _get_ydl_opts temp_file f)) <$> take n options).
Proof.
  revert s. induction options as [|f rest IH]; intros s.
  - exists 0%nat. cbn. by rewrite app_nil_r.
  - cbn [try_formats]. unfold _try_download, YoutubeDL_download. munfold.
    destruct (ydl_download _ _ _ _) as [[[u|e] w] d]; cbn.
    + exists 1%nat. by rewrite extractor_calls_snoc.
    + match goal with |- context [try_formats _ _ _ ?s1] =>
        destruct (IH s1) as (n & ->) end.
      exists (S n). cbn. rewrite !extractor_calls_snoc. cbn.
      by rewrite app_nil_r, <-app_assoc.
Qed.

(** X19: every call of the extractor that [download_audio] makes is for
    the requested URL, with the options [_get_ydl_opts] builds for the
    one temporary path of that call and a format of the list, taken in
    order from its start. *)
Theorem download_audio_extractor_calls url s :
  match gettempdir (world s) with
  | Ret temp_dir =>
      let temp_file := temp_file_path temp_dir (time_now (world s)) in
      ∃ n,
        extractor_calls (trace (download_audio url s).2)
        = extractor_calls (trace s)
          ++ ((λ f, (url, _get_ydl_opts temp_file f))
                <$> take n format_options)
  | Raise _ =>
      extractor_calls (trace (download_audio url s).2)
      = extractor_calls (trace s)
  end.
Proof.
  unfold download_audio, tempfile_gettempdir, time_time. munfold.
  destruct (gettempdir (world s)) as [temp_dir|e].
  - set (tf := temp_file_path _ _).
    unfold download_audio_attempts, os_path_exists. munfold.
    destruct (extractor_calls_try_formats url tf format_options s)
      as (n & Hn).
    exists n.
    destruct (try_formats url tf format_options s) as [[[]|e] s1];
      cbn in Hn |- *.
    + destruct (bool_decide _); cbn; [done|].
      by rewrite extractor_calls_download_audio_except.
    + by rewrite extractor_calls_download_audio_except.
    + by rewrite extractor_calls_download_audio_except.
  - by rewrite extractor_calls_download_audio_except.
Qed.

End Proofs.

(** * The service in the scripted worlds *)

(** The scenario of the specification: the third format works and the
    mp3 is written, the model says "hello world"; [process_video] returns
    that text after three attempts in order, one load of the model and
    one removal, and the file is gone. *)
Example process_video_third_format :
  (run_process sc_third_format ∅).1 = Ret "hello world"
  ∧ attempts (trace (run_process sc_third_format ∅).2)
    = [("bestaudio/best", false); ("worstaudio/worst", false);
       ("bestaudio[ext=m4a]", true)]
  ∧ loader_calls (trace (run_process sc_third_format ∅).2) = 1%nat
  ∧ removals (trace (run_process sc_third_format ∅).2) = [(audio_file, true)]
  ∧ fs (run_process sc_third_format ∅).2 !! audio_file = None.
Proof. vm_compute. repeat split. Qed.

(** Every format fails and nothing is left behind: both stages are named
    in the message. *)
Example process_video_unavailable :
  raised_msg (run_process sc_unavailable ∅).1
  = Some "Error processing video: Error downloading audio: All download attempts failed".
Proof. vm_compute. reflexivity. Qed.

(** C1: every format fails, leaving an mp3 that cannot be removed and a
    raw download that can.  The [PermissionError] of the first
    [os.remove] leaves [download_audio] in place of the download error,
    and the removal of the raw download is never attempted. *)
Theorem download_audio_cleanup_error_escapes :
  attempts (trace (run_download sc_locked_mp3 ∅).2) = failed <$> format_options
  ∧ (run_download sc_locked_mp3 ∅).1
    = Raise (Exc PermissionError
               "[Errno 13] Permission denied: '/tmp/audio_1700000000.mp3'")
  ∧ removals (trace (run_download sc_locked_mp3 ∅).2) = [(audio_file, false)]
  ∧ fs (run_download sc_locked_mp3 ∅).2 !! drop_last4 audio_file
    = Some (File 2048 true).
Proof. vm_compute. repeat split. Qed.

(** C2, as stated, fails: every format fails and the partial download
    that is left cannot be removed.  [download_audio] ends in the
    [PermissionError] of [os.remove], and the file is still there. *)
Lemma download_audio_exhausted_locked_leftover :
  attempts (trace (run_download (sc_partial false) ∅).2)
  = failed <$> format_options
  ∧ (run_download (sc_partial false) ∅).1
    = Raise (Exc PermissionError
               "[Errno 13] Permission denied: '/tmp/audio_1700000000'")
  ∧ (run_download (sc_partial false) ∅).1
    ≠ Raise (Exc ValueError
               "Error downloading audio: All download attempts failed")
  ∧ fs (run_download (sc_partial false) ∅).2 !! drop_last4 audio_file
    = Some (File 512 false).
Proof. vm_compute. repeat split. discriminate. Qed.

Lemma download_audio_exhausted_witness :
  ∃ s',
    run_download (sc_partial true) ∅
    = (Raise (Exc ValueError
         "Error downloading audio: All download attempts failed"), s')
    ∧ fs s' !! audio_file = None
    ∧ fs s' !! drop_last4 audio_file = None.
Proof.
  apply (download_audio_exhausted (ext := scripted (sc_partial true))
           video_url (fresh (sc_partial true) ∅) "/tmp"
           (try_formats (ext := scripted (sc_partial true))
              video_url audio_file format_options
              (fresh (sc_partial true) ∅)).2);
    vm_compute; reflexivity.
Defined.

Lemma transcribe_audio_rejects_witness :
  run_transcribe sc_unavailable ∅
  = (Raise (Exc ValueError
       "Error transcribing audio: Audio file not found at /tmp/audio_1700000000.mp3"),
     fresh sc_unavailable ∅)
  ∧ ∃ s',
      run_transcribe sc_unavailable (disk_with audio_file 0 true)
      = (Raise (Exc ValueError "Error transcribing audio: Audio file is empty"),
         s')
      ∧ model s' = None
      ∧ _model_loaded s' = false
      ∧ world s' = tt
      ∧ model_events (trace s') = []
      ∧ removals (trace s') = [(audio_file, true)].
Proof.
  split.
  - apply (proj1 (transcribe_audio_rejects (ext := scripted sc_unavailable)
                    audio_file (fresh sc_unavailable ∅))).
    vm_compute; reflexivity.
  - apply (proj2 (transcribe_audio_rejects (ext := scripted sc_unavailable)
                    audio_file
                    (fresh sc_unavailable (disk_with audio_file 0 true)))
             (File 0 true)); vm_compute; reflexivity.
Defined.

(** C5: every format fails and the partial download that is left cannot
    be removed.  The error that leaves [process_video] wraps the
    [PermissionError] of the cleanup in [download_audio]; its message
    contains neither "downloading audio" nor "All download attempts
    failed". *)
Theorem process_video_exhausted_locked_leftover :
  attempts (trace (run_process (sc_partial false) ∅).2)
  = failed <$> format_options
  ∧ (run_process (sc_partial false) ∅).1
    = Raise (Exc ValueError
        "Error processing video: [Errno 13] Permission denied: '/tmp/audio_1700000000'")
  ∧ (contains "downloading audio" <$>
       raised_msg (run_process (sc_partial false) ∅).1) = Some false
  ∧ (contains "All download attempts failed" <$>
       raised_msg (run_process (sc_partial false) ∅).1) = Some false.
Proof. vm_compute. repeat split. Qed.

(** C6, as stated, fails: the audio file cannot be removed; the call
    returns the text and the file is still on disk. *)
Lemma transcribe_audio_keeps_locked_file :
  (run_transcribe sc_unavailable (disk_with audio_file 4096 false)).1
  = Ret "hello world"
  ∧ fs (run_transcribe sc_unavailable (disk_with audio_file 4096 false)).2
      !! audio_file
    = Some (File 4096 false).
Proof. vm_compute. split; reflexivity. Qed.

Lemma transcribe_audio_removes_source_witness :
  fs (run_transcribe sc_unavailable (disk_with audio_file 4096 true)).2
    !! audio_file
  = None
  ∧ fs (run_transcribe sc_unavailable (disk_with audio_file 4096 false)).2
      !! audio_file
    = fs (fresh sc_unavailable (disk_with audio_file 4096 false)) !! audio_file
  ∧ ∃ s',
      run_transcribe sc_unavailable (disk_with audio_file 4096 false)
      = (Ret "hello world", s')
      ∧ fs s' !! audio_file = Some (File 4096 false).
Proof.
  split; [|split].
  - apply (proj1 (transcribe_audio_removes_source
                    (ext := scripted sc_unavailable) audio_file
                    (fresh sc_unavailable (disk_with audio_file 4096 true)))
             "hello world"
             (run_transcribe sc_unavailable
                (disk_with audio_file 4096 true)).2);
      vm_compute; reflexivity.
  - apply (proj1 (transcribe_audio_removes_source
                    (ext := scripted sc_unavailable) audio_file
                    (fresh sc_unavailable (disk_with audio_file 4096 false)))
             "hello world"
             (run_transcribe sc_unavailable
                (disk_with audio_file 4096 false)).2);
      vm_compute; reflexivity.
  - apply (proj2 (transcribe_audio_removes_source
                    (ext := scripted sc_unavailable) audio_file
                    (fresh sc_unavailable (disk_with audio_file 4096 false)))
             (File 4096 false) 1%positive
             (load_model (ext := scripted sc_unavailable)
                (fresh sc_unavailable (disk_with audio_file 4096 false))).2
             {| text := "hello world" |} tt);
      [vm_compute; reflexivity | cbn; lia | vm_compute; reflexivity
      | vm_compute; reflexivity].
Defined.

(** C7: the first format is reported as downloaded, there is no mp3, and
    the raw download at the pre-extension path cannot be removed.
    [download_audio] ends in the [PermissionError] of [os.remove], not in
    the download error for "Downloaded audio file not found". *)
Theorem download_audio_missing_output_locked_raw :
  attempts (trace (run_download (sc_no_mp3 false) ∅).2)
  = [("bestaudio/best", true)]
  ∧ fs (run_download (sc_no_mp3 false) ∅).2 !! audio_file = None
  ∧ (run_download (sc_no_mp3 false) ∅).1
    = Raise (Exc PermissionError
               "[Errno 13] Permission denied: '/tmp/audio_1700000000'").
Proof. vm_compute. repeat split. Qed.

(** The same download when the raw file can be removed. *)
Example download_audio_missing_output_example :
  (run_download (sc_no_mp3 true) ∅).1
  = Raise (Exc ValueError
             "Error downloading audio: Downloaded audio file not found")
  ∧ fs (run_download (sc_no_mp3 true) ∅).2 !! drop_last4 audio_file = None.
Proof. vm_compute. split; reflexivity. Qed.



(** A loader that raises is not cached: the next call tries again. *)
Example load_model_retries_after_failure :
  let c := {| sc_tempdir := Ret "/tmp"; sc_clock := 1700000000;
              sc_cuda := true; sc_formats_ok := []; sc_leaves := λ _, [];
              sc_load := Raise (Exc RuntimeError "CUDA out of memory");
              sc_transcribe := Ret {| text := "" |} |} in
  loader_calls
    (trace (call_times (load_model (ext := scripted c)) 2 (fresh c ∅)).2)
  = 2%nat.
Proof. vm_compute. reflexivity. Qed.

(** * Further properties in the scripted worlds *)

Lemma load_model_failure_propagates_witness :
  ∃ s',
    load_model (ext := scripted sc_load_fails) (fresh sc_load_fails ∅)
    = (Raise (Exc RuntimeError "CUDA out of memory"), s')
    ∧ self_fields s' = self_fields (fresh sc_load_fails ∅)
    ∧ world s' = tt
    ∧ fs s' = ∅
    ∧ loader_calls (trace s') = 1%nat.
Proof.
  apply (load_model_failure_propagates (ext := scripted sc_load_fails)
           (fresh sc_load_fails ∅)
           (Exc RuntimeError "CUDA out of memory") tt);
    vm_compute; reflexivity.
Defined.

Lemma model_ready_invariant_witness :
  model_ready (run_process sc_first_format ∅).2 = true.
Proof.
  destruct (proj2 (model_ready_invariant (ext := scripted sc_first_format))
              (fresh sc_first_format ∅)) as (_ & _ & _ & _ & Hp).
  - vm_compute; reflexivity.
  - exact (Hp video_url).
Defined.

Lemma download_audio_success_witness :
  is_Some (fs (run_download sc_third_format ∅).2 !! audio_file)
  ∧ removals (trace (run_download sc_third_format ∅).2) = [].
Proof.
  destruct (download_audio_success (ext := scripted sc_third_format)
              video_url (fresh sc_third_format ∅) audio_file
              (run_download sc_third_format ∅).2)
    as (_ & Hfile & Hrm & _).
  - vm_compute; reflexivity.
  - split; [exact Hfile|exact Hrm].
Defined.

Lemma transcribe_audio_success_witness :
  ∃ s',
    run_transcribe sc_unavailable (disk_with audio_file 4096 true)
    = (Ret "hello world", s')
    ∧ world s' = tt
    ∧ self_fields s'
      = self_fields
          (load_model (ext := scripted sc_unavailable)
             (fresh sc_unavailable (disk_with audio_file 4096 true))).2
    ∧ fs s' !! audio_file = None.
Proof.
  apply (transcribe_audio_success (ext := scripted sc_unavailable)
           audio_file (fresh sc_unavailable (disk_with audio_file 4096 true))
           (File 4096 true) 1%positive
           (load_model (ext := scripted sc_unavailable)
              (fresh sc_unavailable (disk_with audio_file 4096 true))).2
           {| text := "hello world" |} tt);
    [vm_compute; reflexivity | cbn; lia | vm_compute; reflexivity
    | vm_compute; reflexivity].
Defined.

Lemma transcribe_audio_consumes_witness :
  fs (run_transcribe sc_model_fails (disk_with audio_file 4096 true)).2
    !! audio_file = None
  ∧ fs (run_transcribe sc_model_fails (disk_with audio_file 4096 false)).2
      !! audio_file
    = Some (File 4096 false).
Proof.
  split.
  - apply (proj1 (transcribe_audio_consumes (ext := scripted sc_model_fails)
                    audio_file
                    (fresh sc_model_fails (disk_with audio_file 4096 true)))).
    vm_compute; reflexivity.
  - apply (proj2 (transcribe_audio_consumes (ext := scripted sc_model_fails)
                    audio_file
                    (fresh sc_model_fails (disk_with audio_file 4096 false)))).
    vm_compute; reflexivity.
Defined.

Lemma transcribe_audio_raises_wrapped_witness :
  (∃ s',
     run_transcribe sc_model_fails (disk_with audio_file 4096 false)
     = (Raise (Exc ValueError
          ("Error transcribing audio: "
           +:+ exc_msg (Exc RuntimeError "Failed to load audio"))), s')
     ∧ world s'
       = world (transcribe_audio_try (ext := scripted sc_model_fails)
                  audio_file
                  (fresh sc_model_fails
                     (disk_with audio_file 4096 false))).2
     ∧ self_fields s'
       = self_fields
           (transcribe_audio_try (ext := scripted sc_model_fails)
              audio_file
              (fresh sc_model_fails (disk_with audio_file 4096 false))).2)
  ∧ ∃ e0 s0,
      transcribe_audio_try (ext := scripted sc_model_fails) audio_file
        (fresh sc_model_fails (disk_with audio_file 4096 false))
      = (Raise e0, s0)
      ∧ Exc ValueError "Error transcribing audio: Failed to load audio"
        = Exc ValueError ("Error transcribing audio: " +:+ exc_msg e0).
Proof.
  split.
  - apply (proj1 (transcribe_audio_raises_wrapped
                    (ext := scripted sc_model_fails) audio_file
                    (fresh sc_model_fails (disk_with audio_file 4096 false)))
             (Exc RuntimeError "Failed to load audio")
             (transcribe_audio_try (ext := scripted sc_model_fails)
                audio_file
                (fresh sc_model_fails
                   (disk_with audio_file 4096 false))).2).
    vm_compute; reflexivity.
  - apply (proj2 (transcribe_audio_raises_wrapped
                    (ext := scripted sc_model_fails) audio_file
                    (fresh sc_model_fails (disk_with audio_file 4096 false)))
             (Exc ValueError "Error transcribing audio: Failed to load audio")
             (run_transcribe sc_model_fails
                (disk_with audio_file 4096 false)).2).
    vm_compute; reflexivity.
Defined.

Lemma transcribe_audio_loads_once_witness :
  loader_calls
    (trace (transcribe_audio (ext := scripted sc_first_format) audio_file
              (load_model (ext := scripted sc_first_format)
                 (fresh sc_first_format
                    (disk_with audio_file 4096 true))).2).2)
  = 1%nat.
Proof.
  destruct (proj2 (transcribe_audio_loads_once (ext := scripted sc_first_format)
              audio_file
              (load_model (ext := scripted sc_first_format)
                 (fresh sc_first_format (disk_with audio_file 4096 true))).2))
    as [Hcalls _].
  - vm_compute; reflexivity.
  - exact Hcalls.
Defined.

Lemma process_video_raises_wrapped_witness :
  ∃ e0,
    Exc ValueError
      "Error processing video: Error downloading audio: All download attempts failed"
    = Exc ValueError ("Error processing video: " +:+ exc_msg e0)
    ∧ ((∃ s1,
          download_audio (ext := scripted (sc_partial true)) video_url
            (fresh (sc_partial true) ∅)
          = (Raise e0, s1))
       ∨ (∃ p s1 s2,
            download_audio (ext := scripted (sc_partial true)) video_url
              (fresh (sc_partial true) ∅)
            = (Ret p, s1)
            ∧ transcribe_audio (ext := scripted (sc_partial true)) p s1
              = (Raise e0, s2))).
Proof.
  apply (process_video_raises_wrapped (ext := scripted (sc_partial true))
           video_url (fresh (sc_partial true) ∅)
           (Exc ValueError
              "Error processing video: Error downloading audio: All download attempts failed")
           (run_process (sc_partial true) ∅).2).
  vm_compute; reflexivity.
Defined.

Lemma process_video_leaves_no_audio_witness :
  fs (run_process sc_model_fails ∅).2 !! audio_file = None.
Proof.
  apply (process_video_leaves_no_audio (ext := scripted sc_model_fails)
           video_url (fresh sc_model_fails ∅) "/tmp" true
           (try_formats (ext := scripted sc_model_fails)
              video_url audio_file format_options
              (fresh sc_model_fails ∅)).2);
    vm_compute; reflexivity.
Defined.

Lemma process_video_download_failure_witness :
  run_process sc_unavailable ∅
  = (Raise (Exc ValueError
       "Error processing video: Error downloading audio: All download attempts failed"),
     (run_download sc_unavailable ∅).2)
  ∧ self_fields (run_download sc_unavailable ∅).2
    = self_fields (fresh sc_unavailable ∅)
  ∧ model_events (trace (run_download sc_unavailable ∅).2) = [].
Proof.
  apply (process_video_download_failure (ext := scripted sc_unavailable)
           video_url (fresh sc_unavailable ∅)
           (Exc ValueError
              "Error downloading audio: All download attempts failed")
           (run_download sc_unavailable ∅).2).
  vm_compute; reflexivity.
Defined.

Lemma download_audio_missing_output_witness :
  ∃ s',
    run_download (sc_no_mp3 true) ∅
    = (Raise (Exc ValueError
         "Error downloading audio: Downloaded audio file not found"), s').
Proof.
  apply (download_audio_missing_output (ext := scripted (sc_no_mp3 true))
           video_url (fresh (sc_no_mp3 true) ∅) "/tmp"
           (try_formats (ext := scripted (sc_no_mp3 true))
              video_url audio_file format_options
              (fresh (sc_no_mp3 true) ∅)).2);
    vm_compute; reflexivity.
Defined.

Lemma process_video_exhausted_witness :
  ∃ s',
    run_process (sc_partial true) ∅
    = (Raise (Exc ValueError
         "Error processing video: Error downloading audio: All download attempts failed"),
       s').
Proof.
  apply (process_video_exhausted (ext := scripted (sc_partial true))
           video_url (fresh (sc_partial true) ∅) "/tmp"
           (try_formats (ext := scripted (sc_partial true))
              video_url audio_file format_options
              (fresh (sc_partial true) ∅)).2);
    vm_compute; reflexivity.
Defined.

Lemma process_video_transcription_failure_witness :
  ∃ e0 s0 s3,
    transcribe_audio_try (ext := scripted sc_model_fails) audio_file
      (run_download sc_model_fails ∅).2
    = (Raise e0, s0)
    ∧ Exc ValueError "Error transcribing audio: Failed to load audio"
      = Exc ValueError ("Error transcribing audio: " +:+ exc_msg e0)
    ∧ run_process sc_model_fails ∅
      = (Raise (Exc ValueError
           ("Error processing video: "
            +:+ exc_msg
                  (Exc ValueError
                     "Error transcribing audio: Failed to load audio"))),
         s3)
    ∧ run_process sc_model_fails ∅
      = (Raise (Exc ValueError
           ("Error processing video: " +:+ "Error transcribing audio: "
            +:+ exc_msg e0)),
         s3)
    ∧ self_fields s3
      = self_fields
          (transcribe_audio (ext := scripted sc_model_fails) audio_file
             (run_download sc_model_fails ∅).2).2
    ∧ world s3
      = world
          (transcribe_audio (ext := scripted sc_model_fails) audio_file
             (run_download sc_model_fails ∅).2).2.
Proof.
  apply (process_video_transcription_failure (ext := scripted sc_model_fails)
           video_url (fresh sc_model_fails ∅) audio_file
           (run_download sc_model_fails ∅).2
           (Exc ValueError "Error transcribing audio: Failed to load audio")
           (transcribe_audio (ext := scripted sc_model_fails) audio_file
              (run_download sc_model_fails ∅).2).2);
    vm_compute; reflexivity.
Defined.

Lemma process_video_loads_once_witness :
  loader_calls
    (trace (process_video (ext := scripted sc_first_format) video_url
              (load_model (ext := scripted sc_first_format)
                 (fresh sc_first_format ∅)).2).2)
  = 1%nat
  ∧ self_fields
      (process_video (ext := scripted sc_first_format) video_url
         (load_model (ext := scripted sc_first_format)
            (fresh sc_first_format ∅)).2).2
    = (Some 1%positive, "tiny", Cpu, true).
Proof.
  apply (proj2 (process_video_loads_once (ext := scripted sc_first_format)
                  video_url
                  (load_model (ext := scripted sc_first_format)
                     (fresh sc_first_format ∅)).2)).
  vm_compute; reflexivity.
Defined.

(** Two videos in a row on one instance: both are transcribed, and the
    model is loaded once. *)
Example process_video_twice :
  let s1 := (run_process sc_first_format ∅).2 in
  let r2 := process_video (ext := scripted sc_first_format) video_url s1 in
  (run_process sc_first_format ∅).1 = Ret "hello world"
  ∧ r2.1 = Ret "hello world"
  ∧ loader_calls (trace r2.2) = 1%nat
  ∧ fs r2.2 !! audio_file = None.
Proof. vm_compute. repeat split. Qed.
